(** * gonebot: decoding of OneBot event payloads

    A shallow embedding of [event.go]: the resolver and decoder
    [convertJsonObjectToEvent], the event structs it fills, the session keys
    of message events and the log descriptions of message events.

    Go strings are [string] (byte strings), Go integers are [Z], a pointer to
    a struct is an [option], and a panic is an explicit outcome. *)

From Stdlib Require Import ZArith String Ascii List Bool Lia.
From Stdlib Require Import Numbers.DecimalString Numbers.DecimalZ.
Import ListNotations.

Set Warnings "-register-all".

Open Scope string_scope.
Open Scope Z_scope.

(** ** Outcomes of Go code that can panic *)

(** The error values of [encoding/json] that reach [panic(err)]. *)
Inductive json_error :=
| InvalidUnmarshalError   (* json: Unmarshal(nil) *)
| UnmarshalTypeError.     (* a JSON value that does not fit the Go field, or
                             an error of the Message adapter's own decoder *)

Inductive panic_value :=
| PanicString (msg : string)
| PanicError (err : json_error).

Inductive outcome (A : Type) :=
| Returns (a : A)
| Panics (p : panic_value).

Arguments Returns {A} a.
Arguments Panics {A} p.

Notation "x <- a ;; b" :=
  (match a with Some x => b | None => None end)
  (at level 61, a at next level, right associativity).

(** ** JSON payloads

    A payload is a parsed JSON text.  Objects keep their members in source
    order and keep duplicate keys, because the two readers used by the
    decoder treat them differently.  A number keeps its literal. *)

Inductive json :=
| JNull
| JBool (b : bool)
| JNumber (lit : string)
| JString (s : string)
| JArray (items : list json)
| JObject (members : list (string * json)).

Definition members := list (string * json).

Definition is_digit (c : ascii) : bool :=
  let n := N_of_ascii c in ((48 <=? n) && (n <=? 57))%N.

Fixpoint all_digits (s : string) : bool :=
  match s with
  | EmptyString => true
  | String c r => is_digit c && all_digits r
  end.

(** ** gjson: the reader used for the discriminator fields *)

Module gjson.

(** What [Result.String] prints for values the model keeps abstract: the
    source text of an array or object ([Raw]) and the shortest decimal form
    of a number written with a fraction or an exponent ([FormatFloat]). *)
Class Text := {
  Raw : json -> string;
  FormatFloat : string -> string
}.

(** [None] is the Result of a path that matched nothing. *)
Definition Result := option json.

Fixpoint first_member (key : string) (ms : members) : Result :=
  match ms with
  | [] => None
  | (k, v) :: rest => if (k =? key)%string then Some v else first_member key rest
  end.

(** [obj.Get(key)] for a key without path syntax: the first member of the
    top-level object with exactly that key.  The keys read by the decoder
    are "post_type", "sub_type" and [postType + "_type"]; a payload whose
    post_type contains gjson path characters is read here as a plain key
    (such a post_type never names a known event type, so no decoded event
    depends on it: only the type name printed by the panic for an unknown
    type can differ from the one the path would give). *)
Definition Get (obj : json) (key : string) : Result :=
  match obj with
  | JObject ms => first_member key ms
  | _ => None
  end.

(** A JSON null exists: its Raw text is not empty. *)
Definition Exists (r : Result) : bool :=
  match r with
  | Some _ => true
  | None => false
  end.

Definition int_shaped (lit : string) : bool :=
  match lit with
  | String "-" r => all_digits r
  | _ => all_digits lit
  end.

Definition String `{Text} (r : Result) : string :=
  match r with
  | None => ""
  | Some JNull => ""
  | Some (JBool true) => "true"
  | Some (JBool false) => "false"
  | Some (JNumber lit) => if int_shaped lit then lit else FormatFloat lit
  | Some (JString s) => s
  | Some v => Raw v
  end.

End gjson.

(** ** encoding/json: the reader used to fill the structs *)

Module encoding_json.

Definition lower (c : ascii) : ascii :=
  let n := N_of_ascii c in
  if ((65 <=? n) && (n <=? 90))%N then ascii_of_N (n + 32) else c.

(** Case folding of a key.  ASCII letters fold to lower case; the two other
    letters that fold to an ASCII letter are U+017F (long s: C5 BF) and
    U+212A (Kelvin sign: E2 84 AA). *)
Fixpoint fold (s : string) : string :=
  match s with
  | EmptyString => EmptyString
  | String c r =>
      match r with
      | String c1 r1 =>
          if Ascii.eqb c "197" && Ascii.eqb c1 "191"
          then String "s" (fold r1)
          else
            match r1 with
            | String c2 r2 =>
                if Ascii.eqb c "226" && Ascii.eqb c1 "132"
                   && Ascii.eqb c2 "170"
                then String "k" (fold r2)
                else String (lower c) (fold r)
            | EmptyString => String (lower c) (fold r)
            end
      | EmptyString => String (lower c) (fold r)
      end
  end.

(** A key selects the field tagged [name] when the two are equal or equal
    after folding.  Within every struct below no two tags fold to the same
    name, so the exact match that Go tries first selects the same field. *)
Definition selects (name key : string) : bool :=
  (fold key =? fold name)%string.

Fixpoint digits_value (s : string) (acc : Z) : option Z :=
  match s with
  | EmptyString => Some acc
  | String c r =>
      if is_digit c
      then digits_value r (10 * acc + (Z.of_N (N_of_ascii c) - 48))
      else None
  end.

(** [strconv.ParseInt(lit, 10, 64)] on a JSON number literal. *)
Definition parse_int (lit : string) : option Z :=
  match lit with
  | EmptyString => None
  | String "-" EmptyString => None
  | String "-" r => option_map Z.opp (digits_value r 0)
  | _ => digits_value lit 0
  end.

Definition fits (bits : Z) (z : Z) : bool :=
  (- 2 ^ (bits - 1) <=? z) && (z <? 2 ^ (bits - 1)).

(** Decoders take the JSON value and the value the field holds so far (a
    null leaves a non-pointer field as it is); [None] is a decode error. *)
Definition decoder (A : Type) := json -> A -> option A.

Definition dec_int (bits : Z) : decoder Z := fun v cur =>
  match v with
  | JNull => Some cur
  | JNumber lit =>
      z <- parse_int lit ;;
      if fits bits z then Some z else None
  | _ => None
  end.

Definition dec_string : decoder string := fun v cur =>
  match v with
  | JNull => Some cur
  | JString s => Some s
  | _ => None
  end.

Definition dec_bool : decoder bool := fun v cur =>
  match v with
  | JNull => Some cur
  | JBool b => Some b
  | _ => None
  end.

(** A struct is filled from the members of an object. *)
Definition dec_struct {A} (fill : members -> A -> option A) : decoder A :=
  fun v cur =>
  match v with
  | JNull => Some cur
  | JObject ms => fill ms cur
  | _ => None
  end.

(** A pointer field: null stores nil; any other value is decoded into the
    pointee, allocated at its zero value when the pointer is nil. *)
Definition dec_ptr {A} (zero : A) (dec : decoder A) : decoder (option A) :=
  fun v cur =>
  match v with
  | JNull => Some None
  | _ =>
      a <- dec v (match cur with Some a => a | None => zero end) ;;
      Some (Some a)
  end.

(** The value of the field tagged [name] after the members of an object have
    been stored in source order: every member whose key selects the field is
    decoded into it, a later one over an earlier one.  Go goes on after a
    value of the wrong type and returns the first such error at the end; the
    caller panics on any error, so the model stops at the first one. *)
Fixpoint field {A} (dec : decoder A) (name : string) (ms : members) (cur : A)
  : option A :=
  match ms with
  | [] => Some cur
  | (k, v) :: rest =>
      if selects name k
      then a <- dec v cur ;; field dec name rest a
      else field dec name rest cur
  end.

End encoding_json.

Import encoding_json.

(** The Go type of a tagged field, as far as the JSON type it accepts goes. *)
Inductive kind :=
| KInt (bits : Z)
| KString
| KBool
| KStruct (tags : list (string * kind))   (* a struct *)
| KPtr (tags : list (string * kind))      (* a pointer to a struct *)
| KMessage.                               (* the Message adapter's type *)

Definition schema := list (string * kind).

(** ** The message-content adapter

    [Message] is an external collaborator: a value type that decodes itself
    from the "message" member and prints itself. *)

Module Message.

Class Adapter := {
  t : Type;
  zero : t;
  Unmarshal : decoder t;
  String : t -> string;
  (** Modelled from the spec: the inspection capability that tells whether
      the content mentions or replies to the account [selfId]. *)
  Mentions : t -> Z -> bool
}.

End Message.

(** ** The Go library functions used by the methods *)

Module fmt.

(** The text of [%d] for an integer. *)
Definition d (z : Z) : string := NilEmpty.string_of_int (Z.to_int z).

End fmt.

Module strings.

(** [strings.Replace(s, old, new, -1)] for a one-byte [old]. *)
Fixpoint ReplaceAll (s : string) (old : ascii) (new : string) : string :=
  match s with
  | EmptyString => EmptyString
  | String c r =>
      if Ascii.eqb c old
      then new ++ ReplaceAll r old new
      else String c (ReplaceAll r old new)
  end.

End strings.

Module utf8.

Definition rune := Z.

Definition RuneError : rune := 65533.

Definition byte (c : ascii) : Z := Z.of_N (N_of_ascii c).

Definition char (b : Z) : ascii := ascii_of_N (Z.to_N b).

Definition between (lo hi b : Z) : bool := (lo <=? b) && (b <=? hi).

(** For a leading byte of a multi-byte sequence: the length of the sequence
    and the bounds of its second byte. *)
Definition lead (b0 : Z) : option (nat * Z * Z) :=
  if b0 <? 194 then None                        (* 80..C1 *)
  else if b0 <=? 223 then Some (2%nat, 128, 191)  (* C2..DF *)
  else if b0 =? 224 then Some (3%nat, 160, 191)   (* E0 *)
  else if b0 =? 237 then Some (3%nat, 128, 159)   (* ED *)
  else if b0 <=? 239 then Some (3%nat, 128, 191)  (* E1..EF *)
  else if b0 =? 240 then Some (4%nat, 144, 191)   (* F0 *)
  else if b0 <=? 243 then Some (4%nat, 128, 191)  (* F1..F3 *)
  else if b0 =? 244 then Some (4%nat, 128, 143)   (* F4 *)
  else None.                                    (* F5..FF *)

(** [[]rune(s)]: a byte that starts no well-formed sequence becomes
    RuneError and the decoding resumes at the next byte. *)
Fixpoint runes (s : string) : list rune :=
  match s with
  | EmptyString => []
  | String c0 s1 =>
      let b0 := byte c0 in
      if b0 <? 128 then b0 :: runes s1 else
      match lead b0 with
      | Some (2%nat, lo, hi) =>
          match s1 with
          | String c1 s2 =>
              if between lo hi (byte c1)
              then ((b0 - 192) * 64 + (byte c1 - 128)) :: runes s2
              else RuneError :: runes s1
          | _ => RuneError :: runes s1
          end
      | Some (3%nat, lo, hi) =>
          match s1 with
          | String c1 (String c2 s3) =>
              if between lo hi (byte c1) && between 128 191 (byte c2)
              then ((b0 - 224) * 4096 + (byte c1 - 128) * 64
                    + (byte c2 - 128)) :: runes s3
              else RuneError :: runes s1
          | _ => RuneError :: runes s1
          end
      | Some (4%nat, lo, hi) =>
          match s1 with
          | String c1 (String c2 (String c3 s4)) =>
              if between lo hi (byte c1) && between 128 191 (byte c2)
                 && between 128 191 (byte c3)
              then ((b0 - 240) * 262144 + (byte c1 - 128) * 4096
                    + (byte c2 - 128) * 64 + (byte c3 - 128)) :: runes s4
              else RuneError :: runes s1
          | _ => RuneError :: runes s1
          end
      | _ => RuneError :: runes s1
      end
  end.

Definition valid (r : rune) : bool :=
  between 0 55295 r || between 57344 1114111 r.

(** The bytes of one rune; a value that is no code point is written as
    RuneError. *)
Definition encode (r : rune) : string :=
  let r := if valid r then r else RuneError in
  if r <? 128 then String (char r) EmptyString
  else if r <? 2048 then
    String (char (192 + r / 64)) (String (char (128 + r mod 64)) EmptyString)
  else if r <? 65536 then
    String (char (224 + r / 4096))
      (String (char (128 + (r / 64) mod 64))
         (String (char (128 + r mod 64)) EmptyString))
  else
    String (char (240 + r / 262144))
      (String (char (128 + (r / 4096) mod 64))
         (String (char (128 + (r / 64) mod 64))
            (String (char (128 + r mod 64)) EmptyString))).

(** [string(rs)] for a slice of runes. *)
Fixpoint string_of_runes (rs : list rune) : string :=
  match rs with
  | [] => EmptyString
  | r :: rest => encode r ++ string_of_runes rest
  end.

End utf8.

(** Slice expressions; [None] is the run-time panic of an index out of
    range.  The bound checked is the length (Go allows up to the capacity,
    which is at least the length). *)
Definition len {A} (l : list A) : Z := Z.of_nat (List.length l).

Definition slice_to {A} (l : list A) (hi : Z) : option (list A) :=
  if (0 <=? hi) && (hi <=? len l) then Some (firstn (Z.to_nat hi) l) else None.

Definition slice_from {A} (l : list A) (lo : Z) : option (list A) :=
  if (0 <=? lo) && (lo <=? len l) then Some (skipn (Z.to_nat lo) l) else None.

Definition newline : ascii := "010".

(** ** The event structs

    One module per Go struct: the record, its zero value, the tags of its
    fields and [fill], what [json.Unmarshal] stores in it from the members
    of a JSON object.  The fields of an embedded struct are read from the
    same object. *)

Module Event.

Record t := mk { Time : Z; SelfId : Z; PostType : string;
  EventName : string;   (* json:"-" *)
  ToMe : bool           (* json:"-" *) }.

Definition zero : t := mk 0 0 "" "" false.

Definition tags : schema :=
  [("time", KInt 64); ("self_id", KInt 64); ("post_type", KString)].

Definition fill (ms : members) (e : t) : option t :=
  time <- field (dec_int 64) "time" ms (Time e) ;;
  self_id <- field (dec_int 64) "self_id" ms (SelfId e) ;;
  post_type <- field dec_string "post_type" ms (PostType e) ;;
  Some (mk time self_id post_type (EventName e) (ToMe e)).

Definition GetPostType (e : t) : string := PostType e.

Definition GetEventName (e : t) : string := EventName e.

Definition IsMessageEvent (e : t) : bool := (PostType e =? "message")%string.

Definition IsToMe (e : t) : bool := ToMe e.

End Event.

Module MessageEvent.
Section WithAdapter.
Context {adapter : Message.Adapter}.

Record t := mk { Event : Event.t; MessageType : string; SubType : string;
  MessageId : Z; UserId : Z; Message : Message.t; RawMessage : string;
  Font : Z }.

Definition zero : t := mk Event.zero "" "" 0 0 Message.zero "" 0.

Definition tags : schema :=
  (Event.tags ++
  [("message_type", KString); ("sub_type", KString); ("message_id", KInt 32);
   ("user_id", KInt 64); ("message", KMessage); ("raw_message", KString);
   ("font", KInt 32)])%list.

Definition fill (ms : members) (e : t) : option t :=
  base <- Event.fill ms (Event e) ;;
  message_type <- field dec_string "message_type" ms (MessageType e) ;;
  sub_type <- field dec_string "sub_type" ms (SubType e) ;;
  message_id <- field (dec_int 32) "message_id" ms (MessageId e) ;;
  user_id <- field (dec_int 64) "user_id" ms (UserId e) ;;
  message <- field Message.Unmarshal "message" ms (Message e) ;;
  raw_message <- field dec_string "raw_message" ms (RawMessage e) ;;
  font <- field (dec_int 32) "font" ms (Font e) ;;
  Some (mk base message_type sub_type message_id user_id message raw_message
           font).

Definition mapEvent (f : Event.t -> Event.t) (e : t) : t :=
  mk (f (Event e)) (MessageType e) (SubType e) (MessageId e) (UserId e)
     (Message e) (RawMessage e) (Font e).

Definition GetMessageType (e : t) : string := MessageType e.

Definition GetSessionId (e : t) : string := fmt.d (UserId e).

(** The content of a description, as both GetEventDescription methods
    compute it (their first lines are the same): the printed message, cut to
    its first and last 50 runes when it has more than 100, then with every
    newline escaped. *)
Definition content (e : t) : option string :=
  let msg := Message.String (Message e) in
  let msgRune := utf8.runes msg in
  msg <- (if 100 <? len msgRune
          then
            first <- slice_to msgRune 50 ;;
            last <- slice_from msgRune (len msgRune - 50) ;;
            Some (utf8.string_of_runes first ++ "...(省略"
                  ++ fmt.d (len msgRune - 100) ++ "个字符)..."
                  ++ utf8.string_of_runes last)
          else Some msg) ;;
  Some (strings.ReplaceAll msg newline "\n").

End WithAdapter.
End MessageEvent.

Module MessageEventSender.

Record t := mk { UserId : Z; Nickname : string; Sex : string; Age : Z }.

Definition zero : t := mk 0 "" "" 0.

Definition tags : schema :=
  [("user_id", KInt 64); ("nickname", KString); ("sex", KString);
   ("age", KInt 32)].

Definition fill (ms : members) (e : t) : option t :=
  user_id <- field (dec_int 64) "user_id" ms (UserId e) ;;
  nickname <- field dec_string "nickname" ms (Nickname e) ;;
  sex <- field dec_string "sex" ms (Sex e) ;;
  age <- field (dec_int 32) "age" ms (Age e) ;;
  Some (mk user_id nickname sex age).

End MessageEventSender.

Module GroupMessageEventSender.

Record t := mk { MessageEventSender : MessageEventSender.t; Card : string;
  Area : string; Level : string; Role : string; Title : string }.

Definition zero : t := mk MessageEventSender.zero "" "" "" "" "".

Definition tags : schema :=
  (MessageEventSender.tags ++
  [("card", KString); ("area", KString); ("level", KString);
   ("role", KString); ("title", KString)])%list.

Definition fill (ms : members) (e : t) : option t :=
  base <- MessageEventSender.fill ms (MessageEventSender e) ;;
  card <- field dec_string "card" ms (Card e) ;;
  area <- field dec_string "area" ms (Area e) ;;
  level <- field dec_string "level" ms (Level e) ;;
  role <- field dec_string "role" ms (Role e) ;;
  title <- field dec_string "title" ms (Title e) ;;
  Some (mk base card area level role title).

End GroupMessageEventSender.

Module Anonymous.

Record t := mk { Id : Z; Name : string; Flag : string }.

Definition zero : t := mk 0 "" "".

Definition tags : schema :=
  [("id", KInt 64); ("name", KString); ("flag", KString)].

Definition fill (ms : members) (e : t) : option t :=
  id <- field (dec_int 64) "id" ms (Id e) ;;
  name <- field dec_string "name" ms (Name e) ;;
  flag <- field dec_string "flag" ms (Flag e) ;;
  Some (mk id name flag).

End Anonymous.

Module PrivateMessageEvent.
Section WithAdapter.
Context {adapter : Message.Adapter}.

(** [Sender] has no tag: its JSON name is the field name. *)
Record t := mk { MessageEvent : MessageEvent.t;
  Sender : option MessageEventSender.t }.

Definition zero : t := mk MessageEvent.zero None.

Definition tags : schema :=
  (MessageEvent.tags ++ [("Sender", KPtr MessageEventSender.tags)])%list.

Definition fill (ms : members) (e : t) : option t :=
  base <- MessageEvent.fill ms (MessageEvent e) ;;
  sender <- field (dec_ptr MessageEventSender.zero
                     (dec_struct MessageEventSender.fill))
              "Sender" ms (Sender e) ;;
  Some (mk base sender).

Definition Event (e : t) : Event.t := MessageEvent.Event (MessageEvent e).

Definition mapEvent (f : Event.t -> Event.t) (e : t) : t :=
  mk (MessageEvent.mapEvent f (MessageEvent e)) (Sender e).

(** Promoted from the embedded MessageEvent. *)
Definition GetSessionId (e : t) : string :=
  MessageEvent.GetSessionId (MessageEvent e).

Definition GetEventDescription (e : t) : option string :=
  msg <- MessageEvent.content (MessageEvent e) ;;
  Some ("[私聊消息](#" ++ fmt.d (MessageEvent.MessageId (MessageEvent e))
        ++ " 来自" ++ fmt.d (MessageEvent.UserId (MessageEvent e))
        ++ "): " ++ msg).

End WithAdapter.
End PrivateMessageEvent.

Module GroupMessageEvent.
Section WithAdapter.
Context {adapter : Message.Adapter}.

Record t := mk { MessageEvent : MessageEvent.t; GroupId : Z;
  Sender : option GroupMessageEventSender.t;
  Anonymous : option Anonymous.t }.

Definition zero : t := mk MessageEvent.zero 0 None None.

Definition tags : schema :=
  (MessageEvent.tags ++
  [("group_id", KInt 64); ("sender", KPtr GroupMessageEventSender.tags);
   ("anonymous", KPtr Anonymous.tags)])%list.

Definition fill (ms : members) (e : t) : option t :=
  base <- MessageEvent.fill ms (MessageEvent e) ;;
  group_id <- field (dec_int 64) "group_id" ms (GroupId e) ;;
  sender <- field (dec_ptr GroupMessageEventSender.zero
                     (dec_struct GroupMessageEventSender.fill))
              "sender" ms (Sender e) ;;
  anonymous <- field (dec_ptr Anonymous.zero (dec_struct Anonymous.fill))
                 "anonymous" ms (Anonymous e) ;;
  Some (mk base group_id sender anonymous).

Definition Event (e : t) : Event.t := MessageEvent.Event (MessageEvent e).

Definition mapEvent (f : Event.t -> Event.t) (e : t) : t :=
  mk (MessageEvent.mapEvent f (MessageEvent e)) (GroupId e) (Sender e)
     (Anonymous e).

Definition GetEventDescription (e : t) : option string :=
  msg <- MessageEvent.content (MessageEvent e) ;;
  Some ("[群聊消息](#" ++ fmt.d (MessageEvent.MessageId (MessageEvent e))
        ++ " 来自" ++ fmt.d (MessageEvent.UserId (MessageEvent e))
        ++ "@群" ++ fmt.d (GroupId e) ++ "): " ++ msg).

Definition GetSessionId (e : t) : string :=
  fmt.d (MessageEvent.UserId (MessageEvent e)) ++ "@" ++ fmt.d (GroupId e).

End WithAdapter.
End GroupMessageEvent.

Module LifeCycleMetaEvent.

Record t := mk { Event : Event.t; MetaEventType : string; SubType : string }.

Definition zero : t := mk Event.zero "" "".

Definition tags : schema :=
  (Event.tags ++
   [("meta_event_type", KString); ("sub_type", KString)])%list.

Definition fill (ms : members) (e : t) : option t :=
  base <- Event.fill ms (Event e) ;;
  meta_event_type <- field dec_string "meta_event_type" ms (MetaEventType e) ;;
  sub_type <- field dec_string "sub_type" ms (SubType e) ;;
  Some (mk base meta_event_type sub_type).

Definition mapEvent (f : Event.t -> Event.t) (e : t) : t :=
  mk (f (Event e)) (MetaEventType e) (SubType e).

End LifeCycleMetaEvent.

(** The struct of the [Status] field of a heartbeat. *)
Module Status.

Record t := mk { Online : bool; Good : bool }.

Definition zero : t := mk false false.

Definition tags : schema :=
  [("online", KBool); ("good", KBool)].

Definition fill (ms : members) (e : t) : option t :=
  online <- field dec_bool "online" ms (Online e) ;;
  good <- field dec_bool "good" ms (Good e) ;;
  Some (mk online good).

End Status.

Module HeartbeatMetaEvent.

Record t := mk { Event : Event.t; MetaEventType : string; Status : Status.t;
  Interval : Z }.

Definition zero : t := mk Event.zero "" Status.zero 0.

Definition tags : schema :=
  (Event.tags ++
   [("meta_event_type", KString); ("status", KStruct Status.tags);
    ("interval", KInt 64)])%list.

Definition fill (ms : members) (e : t) : option t :=
  base <- Event.fill ms (Event e) ;;
  meta_event_type <- field dec_string "meta_event_type" ms (MetaEventType e) ;;
  status <- field (dec_struct Status.fill) "status" ms (Status e) ;;
  interval <- field (dec_int 64) "interval" ms (Interval e) ;;
  Some (mk base meta_event_type status interval).

Definition mapEvent (f : Event.t -> Event.t) (e : t) : t :=
  mk (f (Event e)) (MetaEventType e) (Status e) (Interval e).

End HeartbeatMetaEvent.

Module NoticeEvent.

Record t := mk { Event : Event.t; NoticeType : string }.

Definition zero : t := mk Event.zero "".

Definition tags : schema :=
  (Event.tags ++
   [("notice_type", KString)])%list.

Definition fill (ms : members) (e : t) : option t :=
  base <- Event.fill ms (Event e) ;;
  notice_type <- field dec_string "notice_type" ms (NoticeType e) ;;
  Some (mk base notice_type).

Definition mapEvent (f : Event.t -> Event.t) (e : t) : t :=
  mk (f (Event e)) (NoticeType e).

End NoticeEvent.

(** The struct of the [File] field of a group upload notice. *)
Module File.

Record t := mk { Id : string; Name : string; Size : Z; BusId : string }.

Definition zero : t := mk "" "" 0 "".

Definition tags : schema :=
  [("id", KString); ("name", KString); ("size", KInt 64);
   ("bus_id", KString)].

Definition fill (ms : members) (e : t) : option t :=
  id <- field dec_string "id" ms (Id e) ;;
  name <- field dec_string "name" ms (Name e) ;;
  size <- field (dec_int 64) "size" ms (Size e) ;;
  bus_id <- field dec_string "bus_id" ms (BusId e) ;;
  Some (mk id name size bus_id).

End File.

Module GroupUploadNoticeEvent.

Record t := mk { NoticeEvent : NoticeEvent.t; GroupId : Z; UserId : Z;
  File : File.t }.

Definition zero : t := mk NoticeEvent.zero 0 0 File.zero.

Definition tags : schema :=
  (NoticeEvent.tags ++
   [("group_id", KInt 64); ("user_id", KInt 64);
    ("file", KStruct File.tags)])%list.

Definition fill (ms : members) (e : t) : option t :=
  base <- NoticeEvent.fill ms (NoticeEvent e) ;;
  group_id <- field (dec_int 64) "group_id" ms (GroupId e) ;;
  user_id <- field (dec_int 64) "user_id" ms (UserId e) ;;
  file <- field (dec_struct File.fill) "file" ms (File e) ;;
  Some (mk base group_id user_id file).

Definition Event (e : t) : Event.t := NoticeEvent.Event (NoticeEvent e).

Definition mapEvent (f : Event.t -> Event.t) (e : t) : t :=
  mk (NoticeEvent.mapEvent f (NoticeEvent e)) (GroupId e) (UserId e) (File e).

End GroupUploadNoticeEvent.

Module GroupAdminNoticeEvent.

Record t := mk { NoticeEvent : NoticeEvent.t; SubType : string; GroupId : Z;
  UserId : Z }.

Definition zero : t := mk NoticeEvent.zero "" 0 0.

Definition tags : schema :=
  (NoticeEvent.tags ++
   [("sub_type", KString); ("group_id", KInt 64); ("user_id", KInt 64)])%list.

Definition fill (ms : members) (e : t) : option t :=
  base <- NoticeEvent.fill ms (NoticeEvent e) ;;
  sub_type <- field dec_string "sub_type" ms (SubType e) ;;
  group_id <- field (dec_int 64) "group_id" ms (GroupId e) ;;
  user_id <- field (dec_int 64) "user_id" ms (UserId e) ;;
  Some (mk base sub_type group_id user_id).

Definition Event (e : t) : Event.t := NoticeEvent.Event (NoticeEvent e).

Definition mapEvent (f : Event.t -> Event.t) (e : t) : t :=
  mk (NoticeEvent.mapEvent f (NoticeEvent e)) (SubType e) (GroupId e)
     (UserId e).

End GroupAdminNoticeEvent.

Module GroupIncreaseNoticeEvent.

Record t := mk { NoticeEvent : NoticeEvent.t; SubType : string; GroupId : Z;
  UserId : Z; OperatorId : Z }.

Definition zero : t := mk NoticeEvent.zero "" 0 0 0.

Definition tags : schema :=
  (NoticeEvent.tags ++
   [("sub_type", KString); ("group_id", KInt 64); ("user_id", KInt 64);
    ("operator_id", KInt 64)])%list.

Definition fill (ms : members) (e : t) : option t :=
  base <- NoticeEvent.fill ms (NoticeEvent e) ;;
  sub_type <- field dec_string "sub_type" ms (SubType e) ;;
  group_id <- field (dec_int 64) "group_id" ms (GroupId e) ;;
  user_id <- field (dec_int 64) "user_id" ms (UserId e) ;;
  operator_id <- field (dec_int 64) "operator_id" ms (OperatorId e) ;;
  Some (mk base sub_type group_id user_id operator_id).

Definition Event (e : t) : Event.t := NoticeEvent.Event (NoticeEvent e).

Definition mapEvent (f : Event.t -> Event.t) (e : t) : t :=
  mk (NoticeEvent.mapEvent f (NoticeEvent e)) (SubType e) (GroupId e)
     (UserId e) (OperatorId e).

End GroupIncreaseNoticeEvent.

Module GroupDecreaseNoticeEvent.

Record t := mk { NoticeEvent : NoticeEvent.t; SubType : string; GroupId : Z;
  UserId : Z; OperatorId : Z }.

Definition zero : t := mk NoticeEvent.zero "" 0 0 0.

Definition tags : schema :=
  (NoticeEvent.tags ++
   [("sub_type", KString); ("group_id", KInt 64); ("user_id", KInt 64);
    ("operator_id", KInt 64)])%list.

Definition fill (ms : members) (e : t) : option t :=
  base <- NoticeEvent.fill ms (NoticeEvent e) ;;
  sub_type <- field dec_string "sub_type" ms (SubType e) ;;
  group_id <- field (dec_int 64) "group_id" ms (GroupId e) ;;
  user_id <- field (dec_int 64) "user_id" ms (UserId e) ;;
  operator_id <- field (dec_int 64) "operator_id" ms (OperatorId e) ;;
  Some (mk base sub_type group_id user_id operator_id).

Definition Event (e : t) : Event.t := NoticeEvent.Event (NoticeEvent e).

Definition mapEvent (f : Event.t -> Event.t) (e : t) : t :=
  mk (NoticeEvent.mapEvent f (NoticeEvent e)) (SubType e) (GroupId e)
     (UserId e) (OperatorId e).

End GroupDecreaseNoticeEvent.

Module GroupBanNoticeEvent.

Record t := mk { NoticeEvent : NoticeEvent.t; SubType : string; GroupId : Z;
  UserId : Z; OperatorId : Z; Duration : Z }.

Definition zero : t := mk NoticeEvent.zero "" 0 0 0 0.

Definition tags : schema :=
  (NoticeEvent.tags ++
   [("sub_type", KString); ("group_id", KInt 64); ("user_id", KInt 64);
    ("operator_id", KInt 64); ("duration", KInt 64)])%list.

Definition fill (ms : members) (e : t) : option t :=
  base <- NoticeEvent.fill ms (NoticeEvent e) ;;
  sub_type <- field dec_string "sub_type" ms (SubType e) ;;
  group_id <- field (dec_int 64) "group_id" ms (GroupId e) ;;
  user_id <- field (dec_int 64) "user_id" ms (UserId e) ;;
  operator_id <- field (dec_int 64) "operator_id" ms (OperatorId e) ;;
  duration <- field (dec_int 64) "duration" ms (Duration e) ;;
  Some (mk base sub_type group_id user_id operator_id duration).

Definition Event (e : t) : Event.t := NoticeEvent.Event (NoticeEvent e).

Definition mapEvent (f : Event.t -> Event.t) (e : t) : t :=
  mk (NoticeEvent.mapEvent f (NoticeEvent e)) (SubType e) (GroupId e)
     (UserId e) (OperatorId e) (Duration e).

End GroupBanNoticeEvent.

Module FriendAddNoticeEvent.

Record t := mk { NoticeEvent : NoticeEvent.t; UserId : Z }.

Definition zero : t := mk NoticeEvent.zero 0.

Definition tags : schema :=
  (NoticeEvent.tags ++
   [("user_id", KInt 64)])%list.

Definition fill (ms : members) (e : t) : option t :=
  base <- NoticeEvent.fill ms (NoticeEvent e) ;;
  user_id <- field (dec_int 64) "user_id" ms (UserId e) ;;
  Some (mk base user_id).

Definition Event (e : t) : Event.t := NoticeEvent.Event (NoticeEvent e).

Definition mapEvent (f : Event.t -> Event.t) (e : t) : t :=
  mk (NoticeEvent.mapEvent f (NoticeEvent e)) (UserId e).

End FriendAddNoticeEvent.

Module GroupRecallNoticeEvent.

Record t := mk { NoticeEvent : NoticeEvent.t; GroupId : Z; UserId : Z;
  OperatorId : Z; MessageId : Z }.

Definition zero : t := mk NoticeEvent.zero 0 0 0 0.

Definition tags : schema :=
  (NoticeEvent.tags ++
   [("group_id", KInt 64); ("user_id", KInt 64); ("operator_id", KInt 64);
    ("message_id", KInt 64)])%list.

Definition fill (ms : members) (e : t) : option t :=
  base <- NoticeEvent.fill ms (NoticeEvent e) ;;
  group_id <- field (dec_int 64) "group_id" ms (GroupId e) ;;
  user_id <- field (dec_int 64) "user_id" ms (UserId e) ;;
  operator_id <- field (dec_int 64) "operator_id" ms (OperatorId e) ;;
  message_id <- field (dec_int 64) "message_id" ms (MessageId e) ;;
  Some (mk base group_id user_id operator_id message_id).

Definition Event (e : t) : Event.t := NoticeEvent.Event (NoticeEvent e).

Definition mapEvent (f : Event.t -> Event.t) (e : t) : t :=
  mk (NoticeEvent.mapEvent f (NoticeEvent e)) (GroupId e) (UserId e)
     (OperatorId e) (MessageId e).

End GroupRecallNoticeEvent.

Module FriendRecallNoticeEvent.

Record t := mk { NoticeEvent : NoticeEvent.t; UserId : Z; MessageId : Z }.

Definition zero : t := mk NoticeEvent.zero 0 0.

Definition tags : schema :=
  (NoticeEvent.tags ++
   [("user_id", KInt 64); ("message_id", KInt 64)])%list.

Definition fill (ms : members) (e : t) : option t :=
  base <- NoticeEvent.fill ms (NoticeEvent e) ;;
  user_id <- field (dec_int 64) "user_id" ms (UserId e) ;;
  message_id <- field (dec_int 64) "message_id" ms (MessageId e) ;;
  Some (mk base user_id message_id).

Definition Event (e : t) : Event.t := NoticeEvent.Event (NoticeEvent e).

Definition mapEvent (f : Event.t -> Event.t) (e : t) : t :=
  mk (NoticeEvent.mapEvent f (NoticeEvent e)) (UserId e) (MessageId e).

End FriendRecallNoticeEvent.

Module PokeNoticeEvent.

Record t := mk { NoticeEvent : NoticeEvent.t; SubType : string; GroupId : Z;
  UserId : Z; TargetId : Z }.

Definition zero : t := mk NoticeEvent.zero "" 0 0 0.

Definition tags : schema :=
  (NoticeEvent.tags ++
   [("sub_type", KString); ("group_id", KInt 64); ("user_id", KInt 64);
    ("target_id", KInt 64)])%list.

Definition fill (ms : members) (e : t) : option t :=
  base <- NoticeEvent.fill ms (NoticeEvent e) ;;
  sub_type <- field dec_string "sub_type" ms (SubType e) ;;
  group_id <- field (dec_int 64) "group_id" ms (GroupId e) ;;
  user_id <- field (dec_int 64) "user_id" ms (UserId e) ;;
  target_id <- field (dec_int 64) "target_id" ms (TargetId e) ;;
  Some (mk base sub_type group_id user_id target_id).

Definition Event (e : t) : Event.t := NoticeEvent.Event (NoticeEvent e).

Definition mapEvent (f : Event.t -> Event.t) (e : t) : t :=
  mk (NoticeEvent.mapEvent f (NoticeEvent e)) (SubType e) (GroupId e)
     (UserId e) (TargetId e).

End PokeNoticeEvent.

Module LuckyKingNoticeEvent.

Record t := mk { NoticeEvent : NoticeEvent.t; SubType : string; GroupId : Z;
  UserId : Z; TargetId : Z }.

Definition zero : t := mk NoticeEvent.zero "" 0 0 0.

Definition tags : schema :=
  (NoticeEvent.tags ++
   [("sub_type", KString); ("group_id", KInt 64); ("user_id", KInt 64);
    ("target_id", KInt 64)])%list.

Definition fill (ms : members) (e : t) : option t :=
  base <- NoticeEvent.fill ms (NoticeEvent e) ;;
  sub_type <- field dec_string "sub_type" ms (SubType e) ;;
  group_id <- field (dec_int 64) "group_id" ms (GroupId e) ;;
  user_id <- field (dec_int 64) "user_id" ms (UserId e) ;;
  target_id <- field (dec_int 64) "target_id" ms (TargetId e) ;;
  Some (mk base sub_type group_id user_id target_id).

Definition Event (e : t) : Event.t := NoticeEvent.Event (NoticeEvent e).

Definition mapEvent (f : Event.t -> Event.t) (e : t) : t :=
  mk (NoticeEvent.mapEvent f (NoticeEvent e)) (SubType e) (GroupId e)
     (UserId e) (TargetId e).

End LuckyKingNoticeEvent.

Module HonorNoticeEvent.

Record t := mk { NoticeEvent : NoticeEvent.t; SubType : string; GroupId : Z;
  UserId : Z; HonorType : string }.

Definition zero : t := mk NoticeEvent.zero "" 0 0 "".

Definition tags : schema :=
  (NoticeEvent.tags ++
   [("sub_type", KString); ("group_id", KInt 64); ("user_id", KInt 64);
    ("honor_type", KString)])%list.

Definition fill (ms : members) (e : t) : option t :=
  base <- NoticeEvent.fill ms (NoticeEvent e) ;;
  sub_type <- field dec_string "sub_type" ms (SubType e) ;;
  group_id <- field (dec_int 64) "group_id" ms (GroupId e) ;;
  user_id <- field (dec_int 64) "user_id" ms (UserId e) ;;
  honor_type <- field dec_string "honor_type" ms (HonorType e) ;;
  Some (mk base sub_type group_id user_id honor_type).

Definition Event (e : t) : Event.t := NoticeEvent.Event (NoticeEvent e).

Definition mapEvent (f : Event.t -> Event.t) (e : t) : t :=
  mk (NoticeEvent.mapEvent f (NoticeEvent e)) (SubType e) (GroupId e)
     (UserId e) (HonorType e).

End HonorNoticeEvent.

Module FriendRequestEvent.

Record t := mk { Event : Event.t; RequestType : string; UserId : Z;
  Comment : string; Flag : string }.

Definition zero : t := mk Event.zero "" 0 "" "".

Definition tags : schema :=
  (Event.tags ++
   [("request_type", KString); ("user_id", KInt 64); ("comment", KString);
    ("flag", KString)])%list.

Definition fill (ms : members) (e : t) : option t :=
  base <- Event.fill ms (Event e) ;;
  request_type <- field dec_string "request_type" ms (RequestType e) ;;
  user_id <- field (dec_int 64) "user_id" ms (UserId e) ;;
  comment <- field dec_string "comment" ms (Comment e) ;;
  flag <- field dec_string "flag" ms (Flag e) ;;
  Some (mk base request_type user_id comment flag).

Definition mapEvent (f : Event.t -> Event.t) (e : t) : t :=
  mk (f (Event e)) (RequestType e) (UserId e) (Comment e) (Flag e).

End FriendRequestEvent.

Module GroupRequestEvent.

Record t := mk { Event : Event.t; RequestType : string; SubType : string;
  GroupId : Z; UserId : Z; Comment : string; Flag : string }.

Definition zero : t := mk Event.zero "" "" 0 0 "" "".

Definition tags : schema :=
  (Event.tags ++
   [("request_type", KString); ("sub_type", KString); ("group_id", KInt 64);
    ("user_id", KInt 64); ("comment", KString); ("flag", KString)])%list.

Definition fill (ms : members) (e : t) : option t :=
  base <- Event.fill ms (Event e) ;;
  request_type <- field dec_string "request_type" ms (RequestType e) ;;
  sub_type <- field dec_string "sub_type" ms (SubType e) ;;
  group_id <- field (dec_int 64) "group_id" ms (GroupId e) ;;
  user_id <- field (dec_int 64) "user_id" ms (UserId e) ;;
  comment <- field dec_string "comment" ms (Comment e) ;;
  flag <- field dec_string "flag" ms (Flag e) ;;
  Some (mk base request_type sub_type group_id user_id comment flag).

Definition mapEvent (f : Event.t -> Event.t) (e : t) : t :=
  mk (f (Event e)) (RequestType e) (SubType e) (GroupId e) (UserId e)
     (Comment e) (Flag e).

End GroupRequestEvent.

(** ** The event interface and the decoder *)

Section Decoder.
Context {adapter : Message.Adapter} {text : gjson.Text}.

(** A non-nil [I_Event]: a pointer to one of the concrete event structs. *)
Inductive I_Event :=
| PrivateMessage (e : PrivateMessageEvent.t)
| GroupMessage (e : GroupMessageEvent.t)
| GroupUploadNotice (e : GroupUploadNoticeEvent.t)
| GroupAdminNotice (e : GroupAdminNoticeEvent.t)
| GroupDecreaseNotice (e : GroupDecreaseNoticeEvent.t)
| GroupIncreaseNotice (e : GroupIncreaseNoticeEvent.t)
| GroupBanNotice (e : GroupBanNoticeEvent.t)
| FriendAddNotice (e : FriendAddNoticeEvent.t)
| GroupRecallNotice (e : GroupRecallNoticeEvent.t)
| FriendRecallNotice (e : FriendRecallNoticeEvent.t)
| PokeNotice (e : PokeNoticeEvent.t)
| LuckyKingNotice (e : LuckyKingNoticeEvent.t)
| HonorNotice (e : HonorNoticeEvent.t)
| FriendRequest (e : FriendRequestEvent.t)
| GroupRequest (e : GroupRequestEvent.t)
| LifeCycleMeta (e : LifeCycleMetaEvent.t)
| HeartbeatMeta (e : HeartbeatMetaEvent.t).

(** The embedded [Event] of an event, whose fields and methods every
    concrete struct promotes. *)
Definition base (ev : I_Event) : Event.t :=
  match ev with
  | PrivateMessage e => PrivateMessageEvent.Event e
  | GroupMessage e => GroupMessageEvent.Event e
  | GroupUploadNotice e => GroupUploadNoticeEvent.Event e
  | GroupAdminNotice e => GroupAdminNoticeEvent.Event e
  | GroupDecreaseNotice e => GroupDecreaseNoticeEvent.Event e
  | GroupIncreaseNotice e => GroupIncreaseNoticeEvent.Event e
  | GroupBanNotice e => GroupBanNoticeEvent.Event e
  | FriendAddNotice e => FriendAddNoticeEvent.Event e
  | GroupRecallNotice e => GroupRecallNoticeEvent.Event e
  | FriendRecallNotice e => FriendRecallNoticeEvent.Event e
  | PokeNotice e => PokeNoticeEvent.Event e
  | LuckyKingNotice e => LuckyKingNoticeEvent.Event e
  | HonorNotice e => HonorNoticeEvent.Event e
  | FriendRequest e => FriendRequestEvent.Event e
  | GroupRequest e => GroupRequestEvent.Event e
  | LifeCycleMeta e => LifeCycleMetaEvent.Event e
  | HeartbeatMeta e => HeartbeatMetaEvent.Event e
  end.

Definition mapEvent (f : Event.t -> Event.t) (ev : I_Event) : I_Event :=
  match ev with
  | PrivateMessage e => PrivateMessage (PrivateMessageEvent.mapEvent f e)
  | GroupMessage e => GroupMessage (GroupMessageEvent.mapEvent f e)
  | GroupUploadNotice e =>
      GroupUploadNotice (GroupUploadNoticeEvent.mapEvent f e)
  | GroupAdminNotice e => GroupAdminNotice (GroupAdminNoticeEvent.mapEvent f e)
  | GroupDecreaseNotice e =>
      GroupDecreaseNotice (GroupDecreaseNoticeEvent.mapEvent f e)
  | GroupIncreaseNotice e =>
      GroupIncreaseNotice (GroupIncreaseNoticeEvent.mapEvent f e)
  | GroupBanNotice e => GroupBanNotice (GroupBanNoticeEvent.mapEvent f e)
  | FriendAddNotice e => FriendAddNotice (FriendAddNoticeEvent.mapEvent f e)
  | GroupRecallNotice e =>
      GroupRecallNotice (GroupRecallNoticeEvent.mapEvent f e)
  | FriendRecallNotice e =>
      FriendRecallNotice (FriendRecallNoticeEvent.mapEvent f e)
  | PokeNotice e => PokeNotice (PokeNoticeEvent.mapEvent f e)
  | LuckyKingNotice e => LuckyKingNotice (LuckyKingNoticeEvent.mapEvent f e)
  | HonorNotice e => HonorNotice (HonorNoticeEvent.mapEvent f e)
  | FriendRequest e => FriendRequest (FriendRequestEvent.mapEvent f e)
  | GroupRequest e => GroupRequest (GroupRequestEvent.mapEvent f e)
  | LifeCycleMeta e => LifeCycleMeta (LifeCycleMetaEvent.mapEvent f e)
  | HeartbeatMeta e => HeartbeatMeta (HeartbeatMetaEvent.mapEvent f e)
  end.

(** The tagged fields of the struct behind an event. *)
Definition tags_of (ev : I_Event) : schema :=
  match ev with
  | PrivateMessage _ => PrivateMessageEvent.tags
  | GroupMessage _ => GroupMessageEvent.tags
  | GroupUploadNotice _ => GroupUploadNoticeEvent.tags
  | GroupAdminNotice _ => GroupAdminNoticeEvent.tags
  | GroupDecreaseNotice _ => GroupDecreaseNoticeEvent.tags
  | GroupIncreaseNotice _ => GroupIncreaseNoticeEvent.tags
  | GroupBanNotice _ => GroupBanNoticeEvent.tags
  | FriendAddNotice _ => FriendAddNoticeEvent.tags
  | GroupRecallNotice _ => GroupRecallNoticeEvent.tags
  | FriendRecallNotice _ => FriendRecallNoticeEvent.tags
  | PokeNotice _ => PokeNoticeEvent.tags
  | LuckyKingNotice _ => LuckyKingNoticeEvent.tags
  | HonorNotice _ => HonorNoticeEvent.tags
  | FriendRequest _ => FriendRequestEvent.tags
  | GroupRequest _ => GroupRequestEvent.tags
  | LifeCycleMeta _ => LifeCycleMetaEvent.tags
  | HeartbeatMeta _ => HeartbeatMetaEvent.tags
  end.

(** Methods of [I_Event], promoted from the embedded [Event]. *)
Definition GetPostType (ev : I_Event) : string := Event.GetPostType (base ev).

Definition GetEventName (ev : I_Event) : string :=
  Event.GetEventName (base ev).

Definition IsMessageEvent (ev : I_Event) : bool :=
  Event.IsMessageEvent (base ev).

Definition IsToMe (ev : I_Event) : bool := Event.IsToMe (base ev).

(** [json.Unmarshal] of a JSON value into the struct behind [ev]. *)
Definition store (v : json) (ev : I_Event) : option I_Event :=
  match ev with
  | PrivateMessage e =>
      option_map PrivateMessage (dec_struct PrivateMessageEvent.fill v e)
  | GroupMessage e =>
      option_map GroupMessage (dec_struct GroupMessageEvent.fill v e)
  | GroupUploadNotice e =>
      option_map GroupUploadNotice
        (dec_struct GroupUploadNoticeEvent.fill v e)
  | GroupAdminNotice e =>
      option_map GroupAdminNotice (dec_struct GroupAdminNoticeEvent.fill v e)
  | GroupDecreaseNotice e =>
      option_map GroupDecreaseNotice
        (dec_struct GroupDecreaseNoticeEvent.fill v e)
  | GroupIncreaseNotice e =>
      option_map GroupIncreaseNotice
        (dec_struct GroupIncreaseNoticeEvent.fill v e)
  | GroupBanNotice e =>
      option_map GroupBanNotice (dec_struct GroupBanNoticeEvent.fill v e)
  | FriendAddNotice e =>
      option_map FriendAddNotice (dec_struct FriendAddNoticeEvent.fill v e)
  | GroupRecallNotice e =>
      option_map GroupRecallNotice
        (dec_struct GroupRecallNoticeEvent.fill v e)
  | FriendRecallNotice e =>
      option_map FriendRecallNotice
        (dec_struct FriendRecallNoticeEvent.fill v e)
  | PokeNotice e =>
      option_map PokeNotice (dec_struct PokeNoticeEvent.fill v e)
  | LuckyKingNotice e =>
      option_map LuckyKingNotice (dec_struct LuckyKingNoticeEvent.fill v e)
  | HonorNotice e =>
      option_map HonorNotice (dec_struct HonorNoticeEvent.fill v e)
  | FriendRequest e =>
      option_map FriendRequest (dec_struct FriendRequestEvent.fill v e)
  | GroupRequest e =>
      option_map GroupRequest (dec_struct GroupRequestEvent.fill v e)
  | LifeCycleMeta e =>
      option_map LifeCycleMeta (dec_struct LifeCycleMetaEvent.fill v e)
  | HeartbeatMeta e =>
      option_map HeartbeatMeta (dec_struct HeartbeatMetaEvent.fill v e)
  end.

(** [json.Unmarshal([]byte(obj.Raw), ev)]: the filled event, or the error.
    A nil [ev] is refused with an InvalidUnmarshalError. *)
Definition Unmarshal (obj : json) (ev : option I_Event)
  : I_Event + json_error :=
  match ev with
  | None => inr InvalidUnmarshalError
  | Some ev =>
      match store obj ev with
      | Some ev' => inl ev'
      | None => inr UnmarshalTypeError
      end
  end.

(** The switch of [convertJsonObjectToEvent]: the value of [ev] after it, or
    the panic of its default branch.  [ev] is nil ([None]) when the
    "notice.notify" case matches none of its sub-cases.  The switch of the
    earlier [FromJsonObject] is the same, case for case. *)
Definition newEvent (typeName subType : string) : outcome (option I_Event) :=
  if (typeName =? "message.private")%string then
    Returns (Some (PrivateMessage PrivateMessageEvent.zero))
  else if (typeName =? "message.group")%string then
    Returns (Some (GroupMessage GroupMessageEvent.zero))
  else if (typeName =? "notice.group_upload")%string then
    Returns (Some (GroupUploadNotice GroupUploadNoticeEvent.zero))
  else if (typeName =? "notice.group_admin")%string then
    Returns (Some (GroupAdminNotice GroupAdminNoticeEvent.zero))
  else if (typeName =? "notice.group_decrease")%string then
    Returns (Some (GroupDecreaseNotice GroupDecreaseNoticeEvent.zero))
  else if (typeName =? "notice.group_increase")%string then
    Returns (Some (GroupIncreaseNotice GroupIncreaseNoticeEvent.zero))
  else if (typeName =? "notice.group_ban")%string then
    Returns (Some (GroupBanNotice GroupBanNoticeEvent.zero))
  else if (typeName =? "notice.friend_add")%string then
    Returns (Some (FriendAddNotice FriendAddNoticeEvent.zero))
  else if (typeName =? "notice.group_recall")%string then
    Returns (Some (GroupRecallNotice GroupRecallNoticeEvent.zero))
  else if (typeName =? "notice.friend_recall")%string then
    Returns (Some (FriendRecallNotice FriendRecallNoticeEvent.zero))
  else if (typeName =? "notice.notify")%string then
    if (subType =? "poke")%string then
      Returns (Some (PokeNotice PokeNoticeEvent.zero))
    else if (subType =? "lucky_king")%string then
      Returns (Some (LuckyKingNotice LuckyKingNoticeEvent.zero))
    else if (subType =? "honor")%string then
      Returns (Some (HonorNotice HonorNoticeEvent.zero))
    else Returns None
  else if (typeName =? "request.friend")%string then
    Returns (Some (FriendRequest FriendRequestEvent.zero))
  else if (typeName =? "request.group")%string then
    Returns (Some (GroupRequest GroupRequestEvent.zero))
  else if (typeName =? "meta_event.lifecycle")%string then
    Returns (Some (LifeCycleMeta LifeCycleMetaEvent.zero))
  else if (typeName =? "meta_event.heartbeat")%string then
    Returns (Some (HeartbeatMeta HeartbeatMetaEvent.zero))
  else Panics (PanicString ("unknown event type: " ++ typeName)).

(** Modelled from the spec: [setEventField] is not in [event.go]; the spec
    has the enricher write the derived fields of the embedded [Event], as the
    reflective assignment of the earlier [FromJsonObject] does for
    EventName.  These are its two uses. *)
Definition setEventName (ev : I_Event) (name : string) : I_Event :=
  mapEvent (fun e => Event.mk (Event.Time e) (Event.SelfId e)
                       (Event.PostType e) name (Event.ToMe e)) ev.

Definition setToMe (ev : I_Event) (b : bool) : I_Event :=
  mapEvent (fun e => Event.mk (Event.Time e) (Event.SelfId e)
                       (Event.PostType e) (Event.EventName e) b) ev.

(** Modelled from the spec: [isEventRelativeToBot] is not in [event.go].
    The spec makes an event addressed to the bot when it is a private
    message, a group message whose content mentions or replies to selfId, a
    group decrease whose affected user is selfId, a poke whose target is
    selfId, a friend-add notice, or any request. *)
Definition isEventRelativeToBot (ev : I_Event) : bool :=
  match ev with
  | PrivateMessage _ => true
  | GroupMessage e =>
      Message.Mentions (MessageEvent.Message (GroupMessageEvent.MessageEvent e))
        (Event.SelfId (GroupMessageEvent.Event e))
  | GroupDecreaseNotice e =>
      GroupDecreaseNoticeEvent.UserId e
        =? Event.SelfId (GroupDecreaseNoticeEvent.Event e)
  | PokeNotice e =>
      PokeNoticeEvent.TargetId e =? Event.SelfId (PokeNoticeEvent.Event e)
  | FriendAddNotice _ => true
  | FriendRequest _ => true
  | GroupRequest _ => true
  | _ => false
  end.

(** The discriminators read from the payload. *)
Definition postType (obj : json) : string :=
  gjson.String (gjson.Get obj "post_type").

Definition nextType (obj : json) : string :=
  gjson.String (gjson.Get obj (postType obj ++ "_type")).

Definition typeName (obj : json) : string :=
  postType obj ++ "." ++ nextType obj.

Definition subType (obj : json) : string :=
  if gjson.Exists (gjson.Get obj "sub_type")
  then gjson.String (gjson.Get obj "sub_type")
  else "".

Definition fullTypeName (obj : json) : string :=
  if gjson.Exists (gjson.Get obj "sub_type")
  then typeName obj ++ "." ++ subType obj
  else typeName obj.

Definition convertJsonObjectToEvent (obj : json) : outcome I_Event :=
  match newEvent (typeName obj) (subType obj) with
  | Panics p => Panics p
  | Returns ev =>
      match Unmarshal obj ev with
      | inr err => Panics (PanicError err)
      | inl ev =>
          let ev := setEventName ev (fullTypeName obj) in
          Returns (if isEventRelativeToBot ev then setToMe ev true else ev)
      end
  end.

End Decoder.

(** ** Sample collaborators

    A message adapter whose content is a plain string, and a text rendering
    for gjson; they are used to run the decoder on concrete payloads. *)

Definition plain_text : Message.Adapter :=
  {| Message.t := string;
     Message.zero := "";
     Message.Unmarshal := dec_string;
     Message.String := fun s => s;
     Message.Mentions := fun s selfId => String.prefix ("@" ++ fmt.d selfId) s |}.

Definition sample_text : gjson.Text :=
  {| gjson.Raw := fun _ => "{}"; gjson.FormatFloat := fun lit => lit |}.

Definition decode : json -> outcome I_Event :=
  convertJsonObjectToEvent (adapter := plain_text) (text := sample_text).

(** The two example payloads of the specification. *)
Definition private_payload : json :=
  JObject [("post_type", JString "message"); ("message_type", JString "private");
           ("time", JNumber "100"); ("self_id", JNumber "1");
           ("user_id", JNumber "2"); ("message_id", JNumber "5");
           ("message", JString "hi")].

Definition poke_payload : json :=
  JObject [("post_type", JString "notice"); ("notice_type", JString "notify");
           ("sub_type", JString "poke"); ("group_id", JNumber "10");
           ("user_id", JNumber "2"); ("target_id", JNumber "1");
           ("self_id", JNumber "1")].

Definition group_payload : json :=
  JObject [("post_type", JString "message"); ("message_type", JString "group");
           ("self_id", JNumber "1"); ("user_id", JNumber "2");
           ("group_id", JNumber "10"); ("message", JString "hi")].

Definition oracle_payload : json :=
  JObject [("post_type", JString "oracle")].

Definition unknown_notify_payload : json :=
  JObject [("post_type", JString "notice"); ("notice_type", JString "notify");
           ("sub_type", JString "unknown_sub")].

Definition private_message (userId : Z) (msg : string)
  : @PrivateMessageEvent.t plain_text :=
  PrivateMessageEvent.mk
    (MessageEvent.mk (adapter := plain_text) Event.zero "private" "" 5 userId
       msg "" 0) None.

Definition group_message (userId groupId : Z) (msg : string)
  : @GroupMessageEvent.t plain_text :=
  GroupMessageEvent.mk
    (MessageEvent.mk (adapter := plain_text) Event.zero "group" "" 5 userId
       msg "" 0) groupId None None.

(** A message of 200 characters. *)
Definition long_text : string := String.concat "" (List.repeat "a" 200).

(** ** Vocabulary of the statements *)

(** Dot-separated segments of an event name. *)
Fixpoint dots (s : string) : nat :=
  match s with
  | EmptyString => 0%nat
  | String c r => if Ascii.eqb c "." then S (dots r) else dots r
  end.

Definition segments (s : string) : nat := S (dots s).

Fixpoint first_segment (s : string) : string :=
  match s with
  | EmptyString => EmptyString
  | String c r => if Ascii.eqb c "." then EmptyString else String c (first_segment r)
  end.

Fixpoint has_char (c : ascii) (s : string) : bool :=
  match s with
  | EmptyString => false
  | String c' r => Ascii.eqb c' c || has_char c r
  end.

(** The cases of the switch on typeName. *)
Definition known_types : list string :=
  ["message.private"; "message.group"; "notice.group_upload";
   "notice.group_admin"; "notice.group_decrease"; "notice.group_increase";
   "notice.group_ban"; "notice.friend_add"; "notice.group_recall";
   "notice.friend_recall"; "notice.notify"; "request.friend";
   "request.group"; "meta_event.lifecycle"; "meta_event.heartbeat"].

Definition notify_sub_types : list string := ["poke"; "lucky_king"; "honor"].

Definition members_of (obj : json) : members :=
  match obj with
  | JObject ms => ms
  | _ => []
  end.

(** The members whose key satisfies [p], in their order. *)
Definition keep_members (p : string -> bool) (ms : members) : members :=
  filter (fun kv => p (fst kv)) ms.

Definition keep (p : string -> bool) (obj : json) : json :=
  match obj with
  | JObject ms => JObject (keep_members p ms)
  | _ => obj
  end.

(** The members of a payload that [json.Unmarshal] stores in the field
    tagged [name]. *)
Definition selecting (name : string) (obj : json) : members :=
  keep_members (selects name) (members_of obj).

(** The payload without its members keyed exactly [key]. *)
Definition without (key : string) (obj : json) : json :=
  keep (fun k => negb (k =? key)%string) obj.

(** Keys named like the derived fields, in any letter case. *)
Definition is_derived (k : string) : bool :=
  selects "EventName" k || selects "ToMe" k.

Definition strip_derived (obj : json) : json :=
  keep (fun k => negb (is_derived k)) obj.

(** A JSON value whose type the Go type [kd] does not accept: a value other
    than null of another JSON type, or an object with such a value in a
    member that selects a field of the struct.  What the Message adapter
    accepts is its own business. *)
Fixpoint mismatch (v : json) (kd : kind) {struct v} : bool :=
  match v with
  | JNull => false
  | JBool _ => match kd with KBool | KMessage => false | _ => true end
  | JNumber _ => match kd with KInt _ | KMessage => false | _ => true end
  | JString _ => match kd with KString | KMessage => false | _ => true end
  | JArray _ => match kd with KMessage => false | _ => true end
  | JObject ms =>
      match kd with
      | KStruct tags | KPtr tags =>
          existsb (fun kv =>
            existsb (fun t =>
              selects (fst t) (fst kv) && mismatch (snd kv) (snd t)) tags) ms
      | KMessage => false
      | _ => true
      end
  end.

(** No two of the names fold to the same name. *)
Fixpoint distinct_folded (names : list string) : bool :=
  match names with
  | [] => true
  | n :: rest =>
      negb (existsb (fun m => (fold m =? fold n)%string) rest)
      && distinct_folded rest
  end.

(** [fill] fails on every object with a member that selects one of [tags]
    and whose value the Go type of the field does not accept. *)
Definition refuses {A} (tags : schema) (fill : members -> A -> option A)
  : Prop :=
  forall ms e k v name kd,
    In (k, v) ms -> In (name, kd) tags -> selects name k = true ->
    mismatch v kd = true -> fill ms e = None.

Section Vocabulary.
Context {adapter : Message.Adapter} {text : gjson.Text}.

(** The struct chosen by the switch, if any. *)
Definition chosen (r : outcome (option I_Event)) : option I_Event :=
  match r with
  | Returns (Some ev) => Some ev
  | _ => None
  end.

Definition resolve (obj : json) : option I_Event :=
  chosen (newEvent (typeName obj) (subType obj)).

(** The case of the switch that allocates the struct behind an event. *)
Definition variant_type (ev : I_Event) : string :=
  match ev with
  | PrivateMessage _ => "message.private"
  | GroupMessage _ => "message.group"
  | GroupUploadNotice _ => "notice.group_upload"
  | GroupAdminNotice _ => "notice.group_admin"
  | GroupDecreaseNotice _ => "notice.group_decrease"
  | GroupIncreaseNotice _ => "notice.group_increase"
  | GroupBanNotice _ => "notice.group_ban"
  | FriendAddNotice _ => "notice.friend_add"
  | GroupRecallNotice _ => "notice.group_recall"
  | FriendRecallNotice _ => "notice.friend_recall"
  | PokeNotice _ | LuckyKingNotice _ | HonorNotice _ => "notice.notify"
  | FriendRequest _ => "request.friend"
  | GroupRequest _ => "request.group"
  | LifeCycleMeta _ => "meta_event.lifecycle"
  | HeartbeatMeta _ => "meta_event.heartbeat"
  end.

(** The last lines of [convertJsonObjectToEvent]. *)
Definition enrich (ev : I_Event) (name : string) : I_Event :=
  let ev := setEventName ev name in
  if isEventRelativeToBot ev then setToMe ev true else ev.

(** The two implementations of [I_MessageEvent]. *)
Inductive I_MessageEvent :=
| Private (e : PrivateMessageEvent.t)
| Group (e : GroupMessageEvent.t).

Definition GetSessionId (m : I_MessageEvent) : string :=
  match m with
  | Private e => PrivateMessageEvent.GetSessionId e
  | Group e => GroupMessageEvent.GetSessionId e
  end.

Definition GetEventDescription (m : I_MessageEvent) : option string :=
  match m with
  | Private e => PrivateMessageEvent.GetEventDescription e
  | Group e => GroupMessageEvent.GetEventDescription e
  end.

Definition message_of (m : I_MessageEvent) : MessageEvent.t :=
  match m with
  | Private e => PrivateMessageEvent.MessageEvent e
  | Group e => GroupMessageEvent.MessageEvent e
  end.

End Vocabulary.

(** ** Vocabulary of the further properties *)

(** The values of the members stored in the field tagged [name], in source
    order. *)
Definition stored (name : string) (obj : json) : list json :=
  map snd (selecting name obj).

(** The last value of a list that is not null. *)
Fixpoint last_non_null (vs : list json) : option json :=
  match vs with
  | [] => None
  | v :: rest =>
      match last_non_null rest with
      | Some w => Some w
      | None => match v with JNull => None | _ => Some v end
      end
  end.

(** The last element of a list. *)
Definition final {A} (l : list A) : option A := last (map Some l) None.

(** A number that an integer field does not hold: a literal with a fraction
    or an exponent, or an integer outside the range of the field. *)
Definition bad_number (v : json) (kd : kind) : bool :=
  match v, kd with
  | JNumber lit, KInt bits =>
      match parse_int lit with
      | Some z => negb (fits bits z)
      | None => true
      end
  | _, _ => false
  end.

Definition refuses_number {A} (tags : schema)
           (fill : members -> A -> option A) : Prop :=
  forall ms e k v name kd,
    In (k, v) ms -> In (name, kd) tags -> selects name k = true ->
    bad_number v kd = true -> fill ms e = None.

Definition escape (s : string) : string := strings.ReplaceAll s newline "\n".

(** [out] starts with one valid rune, decoded from the first one to four
    bytes of [whole], which take at most four bytes once escaped, and goes
    on with the runes of the rest of [whole]. *)
Definition decodes_one (whole : string) (out : list utf8.rune) : Prop :=
  exists r consumed rest,
    whole = consumed ++ rest
    /\ out = r :: utf8.runes rest
    /\ utf8.valid r = true
    /\ (1 <= String.length consumed <= 4)%nat
    /\ (String.length (escape consumed) <= 4)%nat.

(** A payload with three members stored in the field "post_type". *)
Definition mixed_post_type_payload : json :=
  JObject [("post_type", JString "notice");
           ("notice_type", JString "friend_add");
           ("Post_Type", JString "message");
           ("post_type", JNull)].

Section FurtherVocabulary.
Context {adapter : Message.Adapter} {text : gjson.Text}.

(** The Go struct behind an event. *)
Definition struct_name (ev : I_Event) : string :=
  match ev with
  | PrivateMessage _ => "PrivateMessageEvent"
  | GroupMessage _ => "GroupMessageEvent"
  | GroupUploadNotice _ => "GroupUploadNoticeEvent"
  | GroupAdminNotice _ => "GroupAdminNoticeEvent"
  | GroupDecreaseNotice _ => "GroupDecreaseNoticeEvent"
  | GroupIncreaseNotice _ => "GroupIncreaseNoticeEvent"
  | GroupBanNotice _ => "GroupBanNoticeEvent"
  | FriendAddNotice _ => "FriendAddNoticeEvent"
  | GroupRecallNotice _ => "GroupRecallNoticeEvent"
  | FriendRecallNotice _ => "FriendRecallNoticeEvent"
  | PokeNotice _ => "PokeNoticeEvent"
  | LuckyKingNotice _ => "LuckyKingNoticeEvent"
  | HonorNotice _ => "HonorNoticeEvent"
  | FriendRequest _ => "FriendRequestEvent"
  | GroupRequest _ => "GroupRequestEvent"
  | LifeCycleMeta _ => "LifeCycleMetaEvent"
  | HeartbeatMeta _ => "HeartbeatMetaEvent"
  end.

(** The message events among the events. *)
Definition as_message (ev : I_Event) : option I_MessageEvent :=
  match ev with
  | PrivateMessage e => Some (Private e)
  | GroupMessage e => Some (Group e)
  | _ => None
  end.

End FurtherVocabulary.

(** * Properties *)

#[local] Arguments Ascii.eqb : simpl never.
#[local] Arguments String.eqb : simpl never.

Lemma Some_eq {A} (a b : A) : Some a = Some b -> a = b.
Proof. congruence. Qed.

(** ** Strings *)

Lemma append_assoc (a b c : string) : (a ++ b) ++ c = a ++ b ++ c.
Proof.
  induction a as [|x a IH]; simpl; [reflexivity | now rewrite IH].
Qed.

Lemma has_char_app (c : ascii) (a b : string) :
  has_char c (a ++ b) = has_char c a || has_char c b.
Proof.
  induction a as [|x a IH]; simpl; [reflexivity |].
  now rewrite IH, orb_assoc.
Qed.

Lemma ReplaceAll_app (a b : string) (old : ascii) (new : string) :
  strings.ReplaceAll (a ++ b) old new
  = strings.ReplaceAll a old new ++ strings.ReplaceAll b old new.
Proof.
  induction a as [|x a IH]; simpl; [reflexivity |].
  destruct (Ascii.eqb x old); rewrite IH; [now rewrite append_assoc | reflexivity].
Qed.

Lemma ReplaceAll_absent (s : string) (old : ascii) (new : string) :
  has_char old s = false -> strings.ReplaceAll s old new = s.
Proof.
  induction s as [|x s IH]; simpl; [reflexivity |].
  intros H. apply orb_false_iff in H as [Hx Hs].
  rewrite Hx. now rewrite IH.
Qed.

Lemma ReplaceAll_clears (s : string) (old : ascii) (new : string) :
  has_char old new = false ->
  has_char old (strings.ReplaceAll s old new) = false.
Proof.
  intros Hnew. induction s as [|x s IH]; simpl; [reflexivity |].
  destruct (Ascii.eqb x old) eqn:E.
  - now rewrite has_char_app, Hnew, IH.
  - simpl. now rewrite E, IH.
Qed.

(** ** The text of [%d] *)

Lemma uint_chars (c : ascii) (d : Decimal.uint) :
  has_char c (NilEmpty.string_of_uint d) = true -> is_digit c = true.
Proof.
  induction d; simpl; try discriminate; intros H;
    apply orb_true_iff in H as [H | H]; auto;
    apply Ascii.eqb_eq in H; subst c; reflexivity.
Qed.

Lemma fmt_d_chars (c : ascii) (z : Z) :
  has_char c (fmt.d z) = true -> c = "-"%char \/ is_digit c = true.
Proof.
  unfold fmt.d. destruct (Z.to_int z) as [d | d]; simpl.
  - intros H. right. eapply uint_chars; eauto.
  - intros H. apply orb_true_iff in H as [H | H].
    + left. apply Ascii.eqb_eq in H. now subst.
    + right. eapply uint_chars; eauto.
Qed.

Lemma fmt_d_lacks (c : ascii) (z : Z) :
  Ascii.eqb c "-" = false -> is_digit c = false -> has_char c (fmt.d z) = false.
Proof.
  intros Hm Hd. destruct (has_char c (fmt.d z)) eqn:E; [| reflexivity].
  apply fmt_d_chars in E as [E | E].
  - subst c. discriminate Hm.
  - congruence.
Qed.

Lemma fmt_d_inj (a b : Z) : fmt.d a = fmt.d b -> a = b.
Proof.
  unfold fmt.d. intros H.
  apply DecimalZ.to_int_inj.
  apply (f_equal NilEmpty.int_of_string) in H.
  rewrite !NilEmpty.isi in H. congruence.
Qed.

(** Two texts joined by a separator that the first parts do not contain
    split in one way only. *)
Lemma joined_inj (c : ascii) (a a' b b' : string) :
  has_char c a = false -> has_char c a' = false ->
  a ++ String c b = a' ++ String c b' -> a = a' /\ b = b'.
Proof.
  revert a'. induction a as [|x a IH]; intros [|x' a']; simpl; intros Ha Ha' H.
  - now inversion H.
  - inversion H; subst. now rewrite Ascii.eqb_refl in Ha'.
  - inversion H; subst. now rewrite Ascii.eqb_refl in Ha.
  - inversion H; subst.
    apply orb_false_iff in Ha as [_ Ha]. apply orb_false_iff in Ha' as [_ Ha'].
    destruct (IH a' Ha Ha' H2) as [-> ->]. auto.
Qed.

(** ** Session keys *)

Section Sessions.
Context {adapter : Message.Adapter}.

(** C4. The session key of a private message event is the decimal text of
    its userId, that of a group message event is "<userId>@<groupId>"; two
    message events with the same session key have the same userId and are
    either both private or both from the same group. *)
Theorem session_keys :
  (forall e : PrivateMessageEvent.t,
      GetSessionId (Private e)
      = fmt.d (MessageEvent.UserId (PrivateMessageEvent.MessageEvent e)))
  /\ (forall e : GroupMessageEvent.t,
      GetSessionId (Group e)
      = fmt.d (MessageEvent.UserId (GroupMessageEvent.MessageEvent e))
        ++ "@" ++ fmt.d (GroupMessageEvent.GroupId e))
  /\ (forall m1 m2 : I_MessageEvent,
      GetSessionId m1 = GetSessionId m2 ->
      MessageEvent.UserId (message_of m1) = MessageEvent.UserId (message_of m2)
      /\ match m1, m2 with
         | Private _, Private _ => True
         | Group g1, Group g2 =>
             GroupMessageEvent.GroupId g1 = GroupMessageEvent.GroupId g2
         | _, _ => False
         end).
Proof.
  split; [reflexivity | split; [reflexivity |]].
  assert (Hat : forall z, has_char "@" (fmt.d z) = false)
    by (intros z; apply fmt_d_lacks; reflexivity).
  intros [e1 | g1] [e2 | g2]; cbn [GetSessionId message_of];
    unfold PrivateMessageEvent.GetSessionId, MessageEvent.GetSessionId,
      GroupMessageEvent.GetSessionId; intros H.
  - split; [now apply fmt_d_inj | exact I].
  - exfalso. apply (f_equal (has_char "@")) in H.
    rewrite has_char_app in H. cbn [has_char append] in H.
    rewrite !Hat, Ascii.eqb_refl in H. discriminate H.
  - exfalso. apply (f_equal (has_char "@")) in H.
    rewrite has_char_app in H. cbn [has_char append] in H.
    rewrite !Hat, Ascii.eqb_refl in H. discriminate H.
  - apply joined_inj in H as [Hu Hg]; auto.
    split; now apply fmt_d_inj.
Qed.

End Sessions.

(** ** Descriptions of message events *)

Section Descriptions.
Context {adapter : Message.Adapter}.

Local Abbreviation escaped s := (strings.ReplaceAll s newline "\n").

Lemma GetEventDescription_content (m : I_MessageEvent) (c : string) :
  MessageEvent.content (message_of m) = Some c ->
  exists prefix,
    GetEventDescription m = Some (prefix ++ c)
    /\ has_char newline prefix = false.
Proof.
  intros Hc. destruct m as [e | e]; cbn [GetEventDescription message_of] in *.
  - unfold PrivateMessageEvent.GetEventDescription. rewrite Hc.
    eexists. rewrite <- !append_assoc. split; [reflexivity |].
    rewrite !has_char_app, !fmt_d_lacks by reflexivity. reflexivity.
  - unfold GroupMessageEvent.GetEventDescription. rewrite Hc.
    eexists. rewrite <- !append_assoc. split; [reflexivity |].
    rewrite !has_char_app, !fmt_d_lacks by reflexivity. reflexivity.
Qed.

Lemma content_short (e : MessageEvent.t) :
  len (utf8.runes (Message.String (MessageEvent.Message e))) <= 100 ->
  MessageEvent.content e
  = Some (escaped (Message.String (MessageEvent.Message e))).
Proof.
  intros H. unfold MessageEvent.content.
  destruct (Z.ltb_spec 100
    (len (utf8.runes (Message.String (MessageEvent.Message e))))); [lia |].
  reflexivity.
Qed.

Lemma content_long (e : MessageEvent.t) :
  let rs := utf8.runes (Message.String (MessageEvent.Message e)) in
  100 < len rs ->
  MessageEvent.content e
  = Some (escaped (utf8.string_of_runes (firstn 50 rs))
          ++ "...(省略" ++ fmt.d (len rs - 100) ++ "个字符)..."
          ++ escaped (utf8.string_of_runes (skipn (Z.to_nat (len rs - 50)) rs))).
Proof.
  intros rs H. unfold MessageEvent.content. fold rs.
  destruct (Z.ltb_spec 100 (len rs)); [| lia].
  unfold slice_to, slice_from.
  destruct (Z.leb_spec 0 50); [| lia].
  destruct (Z.leb_spec 50 (len rs)); [| lia].
  destruct (Z.leb_spec 0 (len rs - 50)); [| lia].
  destruct (Z.leb_spec (len rs - 50) (len rs)); [| lia].
  cbn [andb]. f_equal.
  rewrite !ReplaceAll_app.
  rewrite (ReplaceAll_absent "...(省略") by reflexivity.
  rewrite (ReplaceAll_absent "个字符)...") by reflexivity.
  rewrite (ReplaceAll_absent (fmt.d _)) by (apply fmt_d_lacks; reflexivity).
  reflexivity.
Qed.

(** C7. A message event whose content has more than 100 characters is
    described by the header of its kind followed by exactly this content:
    the first 50 characters of the message, the marker "...(省略N个字符)..."
    with N the length minus 100, and the last 50 characters, nothing before,
    between or after them; newlines in the two kept parts are written as
    backslash-n, so the description contains no newline. *)
Theorem description_of_long_content (m : I_MessageEvent) :
  let rs := utf8.runes (Message.String (MessageEvent.Message (message_of m))) in
  let c := escaped (utf8.string_of_runes (firstn 50 rs))
           ++ "...(省略" ++ fmt.d (len rs - 100) ++ "个字符)..."
           ++ escaped (utf8.string_of_runes
                         (skipn (Z.to_nat (len rs - 50)) rs)) in
  100 < len rs ->
  MessageEvent.content (message_of m) = Some c
  /\ GetEventDescription m
     = Some (match m with
             | Private e =>
                 "[私聊消息](#"
                 ++ fmt.d (MessageEvent.MessageId (message_of m))
                 ++ " 来自" ++ fmt.d (MessageEvent.UserId (message_of m))
                 ++ "): " ++ c
             | Group e =>
                 "[群聊消息](#"
                 ++ fmt.d (MessageEvent.MessageId (message_of m))
                 ++ " 来自" ++ fmt.d (MessageEvent.UserId (message_of m))
                 ++ "@群" ++ fmt.d (GroupMessageEvent.GroupId e)
                 ++ "): " ++ c
             end)
  /\ List.length (firstn 50 rs) = 50%nat
  /\ List.length (skipn (Z.to_nat (len rs - 50)) rs) = 50%nat
  /\ forall d, GetEventDescription m = Some d -> has_char newline d = false.
Proof.
  intros rs c H.
  pose proof (content_long (message_of m) H) as Hc. fold rs in Hc. fold c in Hc.
  split; [exact Hc |].
  assert (Hd : GetEventDescription m
               = Some (match m with
                       | Private e =>
                           "[私聊消息](#"
                           ++ fmt.d (MessageEvent.MessageId (message_of m))
                           ++ " 来自"
                           ++ fmt.d (MessageEvent.UserId (message_of m))
                           ++ "): " ++ c
                       | Group e =>
                           "[群聊消息](#"
                           ++ fmt.d (MessageEvent.MessageId (message_of m))
                           ++ " 来自"
                           ++ fmt.d (MessageEvent.UserId (message_of m))
                           ++ "@群" ++ fmt.d (GroupMessageEvent.GroupId e)
                           ++ "): " ++ c
                       end)).
  { destruct m as [e | e]; cbn [GetEventDescription message_of] in *.
    - unfold PrivateMessageEvent.GetEventDescription. rewrite Hc. reflexivity.
    - unfold GroupMessageEvent.GetEventDescription. rewrite Hc. reflexivity. }
  split; [exact Hd |].
  unfold len in *.
  split; [rewrite length_firstn; lia |].
  split; [rewrite length_skipn; lia |].
  intros d Hd'. rewrite Hd in Hd'. apply Some_eq in Hd'. subst d.
  unfold c.
  destruct m as [e | e];
    rewrite !has_char_app;
    rewrite !ReplaceAll_clears by reflexivity;
    rewrite !fmt_d_lacks by reflexivity; reflexivity.
Qed.

(** C8. GetEventDescription returns a description for every message event;
    when the content has at most 100 characters the description ends with
    the whole content, changed only by the escaping of newlines. *)
Theorem description_is_total (m : I_MessageEvent) :
  let msg := Message.String (MessageEvent.Message (message_of m)) in
  (exists d, GetEventDescription m = Some d)
  /\ (len (utf8.runes msg) <= 100 ->
      MessageEvent.content (message_of m) = Some (escaped msg)
      /\ exists prefix,
          GetEventDescription m = Some (prefix ++ escaped msg)).
Proof.
  intros msg. split.
  - destruct (Z.le_gt_cases (len (utf8.runes msg)) 100) as [Hs | Hl].
    + destruct (GetEventDescription_content m _ (content_short _ Hs))
        as [prefix [Hd _]]. eauto.
    + destruct (GetEventDescription_content m _ (content_long _ Hl))
        as [prefix [Hd _]]. eauto.
  - intros Hs. split; [now apply content_short |].
    destruct (GetEventDescription_content m _ (content_short _ Hs))
      as [prefix [Hd _]]. eauto.
Qed.

End Descriptions.

(** ** Reading the members of an object *)

Ltac binds :=
  repeat match goal with
  | H : match ?x with Some _ => _ | None => None end = Some _ |- _ =>
      let E := fresh "E" in destruct x eqn:E; [| discriminate H]
  | H : Some _ = Some _ |- _ => apply Some_eq in H; subst
  end.

Lemma first_member_In (key : string) (ms : members) (v : json) :
  gjson.first_member key ms = Some v -> In (key, v) ms.
Proof.
  induction ms as [|[k w] ms IH]; cbn [gjson.first_member]; [discriminate |].
  destruct (String.eqb_spec k key) as [-> | _].
  - intros H. apply Some_eq in H. subst. now left.
  - intros H. right. auto.
Qed.

Lemma first_member_keep (p : string -> bool) (key : string) (ms : members) :
  p key = true ->
  gjson.first_member key (keep_members p ms) = gjson.first_member key ms.
Proof.
  intros Hp. unfold keep_members.
  induction ms as [|[k w] ms IH]; cbn [filter fst]; [reflexivity |].
  cbn [gjson.first_member].
  destruct (String.eqb_spec k key) as [-> | Hne].
  - rewrite Hp. cbn [gjson.first_member]. now rewrite String.eqb_refl.
  - destruct (p k); [| exact IH].
    cbn [gjson.first_member].
    destruct (String.eqb_spec k key); [contradiction | exact IH].
Qed.

Lemma Get_keep (p : string -> bool) (key : string) (obj : json) :
  p key = true -> gjson.Get (keep p obj) key = gjson.Get obj key.
Proof.
  intros Hp. destruct obj; try reflexivity.
  cbn [keep gjson.Get]. now apply first_member_keep.
Qed.

(** Only the members that select a field matter to it. *)
Lemma field_keep {A} (dec : decoder A) (name : string) (p : string -> bool)
      (ms : members) (cur : A) :
  (forall k, selects name k = true -> p k = true) ->
  field dec name (keep_members p ms) cur = field dec name ms cur.
Proof.
  intros Hp. revert cur. unfold keep_members.
  induction ms as [|[k w] ms IH]; intros cur; cbn [filter fst];
    [reflexivity |].
  cbn [field]. destruct (selects name k) eqn:Hs.
  - rewrite (Hp _ Hs). cbn [field]. rewrite Hs.
    destruct (dec w cur); [apply IH | reflexivity].
  - destruct (p k); [| apply IH].
    cbn [field]. rewrite Hs. apply IH.
Qed.

Lemma field_omitted {A} (dec : decoder A) (name : string) (ms : members)
      (cur : A) :
  keep_members (selects name) ms = [] -> field dec name ms cur = Some cur.
Proof.
  intros H.
  rewrite <- (field_keep dec name (selects name)) by auto.
  now rewrite H.
Qed.

Lemma field_single {A} (dec : decoder A) (name : string) (ms : members)
      (cur : A) (k : string) (v : json) :
  keep_members (selects name) ms = [(k, v)] ->
  field dec name ms cur = dec v cur.
Proof.
  intros H.
  assert (Hk : selects name k = true).
  { assert (Hin : In (k, v) (keep_members (selects name) ms))
      by (rewrite H; now left).
    apply filter_In in Hin. exact (proj2 Hin). }
  rewrite <- (field_keep dec name (selects name)) by auto.
  rewrite H. cbn [field]. rewrite Hk. now destruct (dec v cur).
Qed.

(** A member that the decoder of its field refuses makes the field fail. *)
Lemma field_refused {A} (dec : decoder A) (name : string) (ms : members)
      (cur : A) (k : string) (v : json) :
  In (k, v) ms -> selects name k = true -> (forall a, dec v a = None) ->
  field dec name ms cur = None.
Proof.
  intros Hin Hs Hdec. revert cur.
  induction ms as [|[k' w] ms IH]; intros cur; [contradiction |].
  cbn [field]. destruct Hin as [Heq | Hin].
  - inversion Heq; subst. now rewrite Hs, Hdec.
  - destruct (selects name k'); [| now apply IH].
    destruct (dec w cur); [now apply IH | reflexivity].
Qed.

Lemma Event_fill_keeps (ms : members) (e b : Event.t) :
  Event.fill ms e = Some b ->
  field dec_string "post_type" ms (Event.PostType e) = Some (Event.PostType b)
  /\ field (dec_int 64) "self_id" ms (Event.SelfId e) = Some (Event.SelfId b)
  /\ Event.EventName b = Event.EventName e
  /\ Event.ToMe b = Event.ToMe e.
Proof.
  unfold Event.fill. intros H. binds. cbn. auto.
Qed.

(** ** The decoder *)

Ltac unfold_fills H :=
  unfold PrivateMessageEvent.fill, GroupMessageEvent.fill, MessageEvent.fill,
    GroupUploadNoticeEvent.fill, GroupAdminNoticeEvent.fill,
    GroupDecreaseNoticeEvent.fill, GroupIncreaseNoticeEvent.fill,
    GroupBanNoticeEvent.fill, FriendAddNoticeEvent.fill,
    GroupRecallNoticeEvent.fill, FriendRecallNoticeEvent.fill,
    PokeNoticeEvent.fill, LuckyKingNoticeEvent.fill, HonorNoticeEvent.fill,
    NoticeEvent.fill, FriendRequestEvent.fill, GroupRequestEvent.fill,
    LifeCycleMetaEvent.fill, HeartbeatMetaEvent.fill in H.

(** Case analysis of the switch on typeName, from a hypothesis about its
    result. *)
Ltac switch_cases H :=
  unfold newEvent in H;
  repeat match type of H with
  | context [String.eqb ?a ?b] =>
      destruct (String.eqb_spec a b); cbn iota in H
  end.

Section DecoderFacts.
Context {adapter : Message.Adapter} {text : gjson.Text}.

Lemma base_mapEvent (f : Event.t -> Event.t) (ev : I_Event) :
  base (mapEvent f ev) = f (base ev).
Proof. destruct ev; reflexivity. Qed.

Lemma isEventRelativeToBot_mapEvent (f : Event.t -> Event.t) (ev : I_Event) :
  (forall e, Event.SelfId (f e) = Event.SelfId e) ->
  isEventRelativeToBot (mapEvent f ev) = isEventRelativeToBot ev.
Proof.
  intros Hf. destruct ev; cbn; try reflexivity; now rewrite Hf.
Qed.

Lemma base_enrich (ev : I_Event) (name : string) :
  base (enrich ev name)
  = Event.mk (Event.Time (base ev)) (Event.SelfId (base ev))
      (Event.PostType (base ev)) name
      (isEventRelativeToBot ev || Event.ToMe (base ev)).
Proof.
  unfold enrich, setToMe, setEventName.
  rewrite (isEventRelativeToBot_mapEvent _ ev) by reflexivity.
  destruct (isEventRelativeToBot ev); rewrite ?base_mapEvent; reflexivity.
Qed.

Lemma isEventRelativeToBot_enrich (ev : I_Event) (name : string) :
  isEventRelativeToBot (enrich ev name) = isEventRelativeToBot ev.
Proof.
  unfold enrich, setToMe, setEventName.
  rewrite (isEventRelativeToBot_mapEvent _ ev) by reflexivity.
  destruct (isEventRelativeToBot ev) eqn:E;
    rewrite ?isEventRelativeToBot_mapEvent by reflexivity; exact E.
Qed.

(** The embedded Event of a filled struct is the embedded Event filled from
    the same value. *)
Lemma store_base (v : json) (ev0 ev1 : I_Event) :
  store v ev0 = Some ev1 ->
  dec_struct Event.fill v (base ev0) = Some (base ev1).
Proof.
  intros H.
  destruct ev0; cbn [store] in H; destruct v;
    cbn [dec_struct option_map] in H; try discriminate H;
    try (apply Some_eq in H; subst; reflexivity);
    unfold option_map in H;
    match type of H with
    | match ?x with Some _ => _ | None => None end = Some _ =>
        let F := fresh "F" in destruct x eqn:F; [| discriminate H]
    end;
    apply Some_eq in H; subst; unfold_fills F; binds; cbn; assumption.
Qed.

Lemma newEvent_zero (t s : string) (ev0 : I_Event) :
  newEvent t s = Returns (Some ev0) -> base ev0 = Event.zero.
Proof.
  intros H. switch_cases H; try discriminate H;
    injection H as <-; reflexivity.
Qed.

Lemma newEvent_known (t s : string) (r : option I_Event) :
  newEvent t s = Returns r -> In t known_types.
Proof.
  intros H. switch_cases H; try discriminate H; subst t; cbn; tauto.
Qed.

Lemma newEvent_unknown (t s : string) :
  ~ In t known_types ->
  newEvent t s = Panics (PanicString ("unknown event type: " ++ t)).
Proof.
  intros H. destruct (newEvent t s) as [r | p] eqn:E.
  - elim H. eapply newEvent_known; eauto.
  - switch_cases E; try discriminate E. symmetry. exact E.
Qed.

Lemma convert_returns (obj : json) (ev : I_Event) :
  convertJsonObjectToEvent obj = Returns ev <->
  exists ev0 ev1,
    newEvent (typeName obj) (subType obj) = Returns (Some ev0)
    /\ store obj ev0 = Some ev1
    /\ ev = enrich ev1 (fullTypeName obj).
Proof.
  unfold convertJsonObjectToEvent, enrich. split.
  - intros H.
    destruct (newEvent (typeName obj) (subType obj)) as [[ev0 |] | p];
      cbn [Unmarshal] in H; try discriminate H.
    destruct (store obj ev0) as [ev1 |] eqn:Hs; [| discriminate H].
    injection H as <-. eauto.
  - intros (ev0 & ev1 & -> & Hs & ->). cbn [Unmarshal]. now rewrite Hs.
Qed.

(** Filling a struct keeps the two derived fields: they have no JSON name. *)
Lemma store_keeps_derived (v : json) (ev0 ev1 : I_Event) :
  store v ev0 = Some ev1 ->
  Event.EventName (base ev1) = Event.EventName (base ev0)
  /\ Event.ToMe (base ev1) = Event.ToMe (base ev0).
Proof.
  intros H. apply store_base in H.
  destruct v; cbn [dec_struct] in H; try discriminate H.
  - apply Some_eq in H. now rewrite H.
  - apply Event_fill_keeps in H. tauto.
Qed.

Lemma variant_type_mapEvent (f : Event.t -> Event.t) (ev : I_Event) :
  variant_type (mapEvent f ev) = variant_type ev.
Proof. destruct ev; reflexivity. Qed.

Lemma variant_type_enrich (ev : I_Event) (name : string) :
  variant_type (enrich ev name) = variant_type ev.
Proof.
  unfold enrich, setToMe, setEventName.
  destruct (isEventRelativeToBot _); now rewrite ?variant_type_mapEvent.
Qed.

Lemma variant_type_store (v : json) (ev0 ev1 : I_Event) :
  store v ev0 = Some ev1 -> variant_type ev1 = variant_type ev0.
Proof.
  intros H. destruct ev0; cbn [store] in H; unfold option_map in H;
    match type of H with
    | match ?x with Some _ => _ | None => None end = Some _ =>
        destruct x; [| discriminate H]
    end; apply Some_eq in H; subst; reflexivity.
Qed.

Lemma variant_type_newEvent (t s : string) (ev0 : I_Event) :
  newEvent t s = Returns (Some ev0) -> variant_type ev0 = t.
Proof.
  intros H. switch_cases H; try discriminate H;
    injection H as <-; subst t; reflexivity.
Qed.

Lemma toMe_of_decoded (obj : json) (ev : I_Event) :
  convertJsonObjectToEvent obj = Returns ev ->
  IsToMe ev = isEventRelativeToBot ev.
Proof.
  intros H. apply convert_returns in H as (ev0 & ev1 & Hnew & Hs & ->).
  unfold IsToMe, Event.IsToMe.
  rewrite base_enrich, isEventRelativeToBot_enrich. cbn [Event.ToMe].
  apply store_keeps_derived in Hs as [_ Hs]. rewrite Hs.
  apply newEvent_zero in Hnew. rewrite Hnew. cbn. apply orb_false_r.
Qed.

End DecoderFacts.

Section Resolution.
Context {adapter : Message.Adapter} {text : gjson.Text}.

(** C2. A payload whose typeName is not a case of the switch panics with
    "unknown event type: <typeName>" and returns no event.  A
    "notice.notify" payload whose sub_type is none of poke, lucky_king and
    honor returns no event either, but what it panics with is the
    InvalidUnmarshalError that json.Unmarshal gives for the nil event: the
    failure of the decoder, which does not carry the typeName. *)
Theorem unresolvable_type_failures :
  (forall obj : json,
      ~ In (typeName obj) known_types ->
      convertJsonObjectToEvent obj
      = Panics (PanicString ("unknown event type: " ++ typeName obj)))
  /\ (forall obj : json,
      typeName obj = "notice.notify" ->
      ~ In (subType obj) notify_sub_types ->
      convertJsonObjectToEvent obj = Panics (PanicError InvalidUnmarshalError)).
Proof.
  split.
  - intros obj H. unfold convertJsonObjectToEvent.
    now rewrite newEvent_unknown.
  - intros obj Ht Hs. unfold convertJsonObjectToEvent, newEvent.
    rewrite Ht. cbn in Hs.
    destruct (String.eqb_spec (subType obj) "poke"); [intuition congruence |].
    destruct (String.eqb_spec (subType obj) "lucky_king");
      [intuition congruence |].
    destruct (String.eqb_spec (subType obj) "honor"); [intuition congruence |].
    reflexivity.
Qed.

End Resolution.

(** ** Events addressed to the bot *)

Section Addressed.
Context {adapter : Message.Adapter} {text : gjson.Text}.

(** C3. The struct of a decoded event is the one of its typeName, and its
    toMe is true exactly when the event is a private message, a group
    message whose content mentions selfId, a group decrease whose user is
    selfId, a poke whose target is selfId, a friend-add notice, or a
    request; so toMe is true for every message.private event and, for a
    message.group event, it is what the adapter says about mentions. *)
Theorem toMe_after_enrichment (obj : json) (ev : I_Event) :
  convertJsonObjectToEvent obj = Returns ev ->
  variant_type ev = typeName obj
  /\ (IsToMe ev = true <->
      (exists e, ev = PrivateMessage e)
      \/ (exists e, ev = GroupMessage e
           /\ Message.Mentions
                (MessageEvent.Message (GroupMessageEvent.MessageEvent e))
                (Event.SelfId (GroupMessageEvent.Event e)) = true)
      \/ (exists e, ev = GroupDecreaseNotice e
           /\ GroupDecreaseNoticeEvent.UserId e
              = Event.SelfId (GroupDecreaseNoticeEvent.Event e))
      \/ (exists e, ev = PokeNotice e
           /\ PokeNoticeEvent.TargetId e
              = Event.SelfId (PokeNoticeEvent.Event e))
      \/ (exists e, ev = FriendAddNotice e)
      \/ (exists e, ev = FriendRequest e)
      \/ (exists e, ev = GroupRequest e))
  /\ (typeName obj = "message.private" -> IsToMe ev = true)
  /\ (typeName obj = "message.group" ->
      exists e, ev = GroupMessage e
        /\ IsToMe ev
           = Message.Mentions
               (MessageEvent.Message (GroupMessageEvent.MessageEvent e))
               (Event.SelfId (GroupMessageEvent.Event e))).
Proof.
  intros H.
  assert (Hv : variant_type ev = typeName obj).
  { apply convert_returns in H as (ev0 & ev1 & Hnew & Hs & ->).
    rewrite variant_type_enrich, (variant_type_store _ _ _ Hs).
    now apply variant_type_newEvent in Hnew. }
  pose proof (toMe_of_decoded _ _ H) as Hto.
  split; [exact Hv |]. rewrite Hto. rewrite <- Hv. clear H Hv Hto.
  split; [| split].
  - split.
    + destruct ev; cbn [isEventRelativeToBot]; intros H;
        try discriminate H; try apply Z.eqb_eq in H;
        first [ left; solve [eauto]
              | do 1 right; left; solve [eauto]
              | do 2 right; left; solve [eauto]
              | do 3 right; left; solve [eauto]
              | do 4 right; left; solve [eauto]
              | do 5 right; left; solve [eauto]
              | do 6 right; solve [eauto] ].
    + intros H.
      repeat (destruct H as [H | H]);
        destruct H as [e' H];
        match type of H with
        | _ /\ _ => destruct H as [-> H']
        | _ => rewrite H
        end;
        cbn [isEventRelativeToBot];
        try reflexivity; try assumption; now apply Z.eqb_eq.
  - destruct ev; cbn [variant_type isEventRelativeToBot];
      intros H; try discriminate H; reflexivity.
  - destruct ev; cbn [variant_type isEventRelativeToBot];
      intros H; try discriminate H. eauto.
Qed.

End Addressed.

(** ** Sender and anonymous descriptors *)

Section Pointers.
Context {adapter : Message.Adapter} {text : gjson.Text}.

Lemma mapEvent_compose (f g : Event.t -> Event.t) (ev : I_Event) :
  mapEvent g (mapEvent f ev) = mapEvent (fun e => g (f e)) ev.
Proof. destruct ev; reflexivity. Qed.

Lemma enrich_mapEvent (ev : I_Event) (name : string) :
  exists f, enrich ev name = mapEvent f ev.
Proof.
  unfold enrich, setToMe, setEventName.
  destruct (isEventRelativeToBot _); rewrite ?mapEvent_compose; eauto.
Qed.

(** A decoded group message event is the zero struct filled from the
    payload, up to the fields of its embedded Event. *)
Lemma decoded_GroupMessage (obj : json) (e : GroupMessageEvent.t) :
  convertJsonObjectToEvent obj = Returns (GroupMessage e) ->
  exists e1 f,
    dec_struct GroupMessageEvent.fill obj GroupMessageEvent.zero = Some e1
    /\ e = GroupMessageEvent.mapEvent f e1.
Proof.
  intros H. apply convert_returns in H as (ev0 & ev1 & Hnew & Hs & He).
  destruct (enrich_mapEvent ev1 (fullTypeName obj)) as [f Hf].
  rewrite Hf in He. clear Hf.
  destruct ev1; cbn [mapEvent] in He; try discriminate He.
  injection He as ->.
  destruct ev0; cbn [store] in Hs; unfold option_map in Hs;
    match type of Hs with
    | match ?x with Some _ => _ | None => None end = Some _ =>
        destruct x eqn:F; [| discriminate Hs]
    end; try discriminate Hs.
  apply Some_eq in Hs. injection Hs as <-.
  match type of F with
  | dec_struct _ _ ?z = _ =>
      assert (z = GroupMessageEvent.zero) by (switch_cases Hnew; congruence);
      subst z
  end.
  eauto.
Qed.

Lemma decoded_PrivateMessage (obj : json) (e : PrivateMessageEvent.t) :
  convertJsonObjectToEvent obj = Returns (PrivateMessage e) ->
  exists e1 f,
    dec_struct PrivateMessageEvent.fill obj PrivateMessageEvent.zero = Some e1
    /\ e = PrivateMessageEvent.mapEvent f e1.
Proof.
  intros H. apply convert_returns in H as (ev0 & ev1 & Hnew & Hs & He).
  destruct (enrich_mapEvent ev1 (fullTypeName obj)) as [f Hf].
  rewrite Hf in He. clear Hf.
  destruct ev1; cbn [mapEvent] in He; try discriminate He.
  injection He as ->.
  destruct ev0; cbn [store] in Hs; unfold option_map in Hs;
    match type of Hs with
    | match ?x with Some _ => _ | None => None end = Some _ =>
        destruct x eqn:F; [| discriminate Hs]
    end; try discriminate Hs.
  apply Some_eq in Hs. injection Hs as <-.
  match type of F with
  | dec_struct _ _ ?z = _ =>
      assert (z = PrivateMessageEvent.zero) by (switch_cases Hnew; congruence);
      subst z
  end.
  eauto.
Qed.

Ltac omitted_field name Hom :=
  match goal with
  | H : field _ name _ _ = Some _ |- _ =>
      rewrite (field_omitted _ name _ _ Hom) in H;
      apply Some_eq in H; now subst
  end.

(** C10. In a decoded group message event, Sender is nil when no member of
    the payload is stored in the field "sender", and Anonymous is nil when
    none is stored in "anonymous"; in a decoded private message event,
    Sender is nil when no member is stored in the field "Sender". *)
Theorem omitted_descriptors_are_nil (obj : json) :
  (forall e : GroupMessageEvent.t,
      convertJsonObjectToEvent obj = Returns (GroupMessage e) ->
      (selecting "sender" obj = [] -> GroupMessageEvent.Sender e = None)
      /\ (selecting "anonymous" obj = [] ->
          GroupMessageEvent.Anonymous e = None))
  /\ (forall e : PrivateMessageEvent.t,
      convertJsonObjectToEvent obj = Returns (PrivateMessage e) ->
      selecting "Sender" obj = [] -> PrivateMessageEvent.Sender e = None).
Proof.
  split.
  - intros e H. apply decoded_GroupMessage in H as (e1 & f & Hfill & ->).
    cbn [GroupMessageEvent.mapEvent GroupMessageEvent.Sender
         GroupMessageEvent.Anonymous].
    destruct obj; cbn [dec_struct] in Hfill; try discriminate Hfill.
    + apply Some_eq in Hfill. subst e1. split; reflexivity.
    + unfold selecting. cbn [members_of].
      unfold GroupMessageEvent.fill in Hfill. binds.
      cbn [GroupMessageEvent.Sender GroupMessageEvent.Anonymous].
      split; intros Hom.
      * omitted_field "sender" Hom.
      * omitted_field "anonymous" Hom.
  - intros e H Hom.
    apply decoded_PrivateMessage in H as (e1 & f & Hfill & ->).
    cbn [PrivateMessageEvent.mapEvent PrivateMessageEvent.Sender].
    destruct obj; cbn [dec_struct] in Hfill; try discriminate Hfill.
    + apply Some_eq in Hfill. now subst e1.
    + unfold selecting in Hom. cbn [members_of] in Hom.
      unfold PrivateMessageEvent.fill in Hfill. binds.
      cbn [PrivateMessageEvent.Sender].
      omitted_field "Sender" Hom.
Qed.

End Pointers.

(** ** Event names *)

Lemma dots_app (a b : string) : dots (a ++ b) = (dots a + dots b)%nat.
Proof.
  induction a as [|x a IH]; cbn [append dots]; [reflexivity |].
  destruct (Ascii.eqb x "."); rewrite IH; reflexivity.
Qed.

Lemma first_segment_join (p r : string) :
  dots p = 0%nat -> first_segment (p ++ String "." r) = p.
Proof.
  induction p as [|x p IH]; cbn [append dots first_segment].
  - now rewrite Ascii.eqb_refl.
  - destruct (Ascii.eqb x "."); [discriminate |].
    intros H. now rewrite IH.
Qed.

Lemma known_dots (t : string) : In t known_types -> dots t = 1%nat.
Proof.
  cbn [In known_types]. intros H.
  repeat (destruct H as [<- | H]; [reflexivity |]). contradiction.
Qed.

(** A typeName that is a case of the switch splits at its only dot. *)
Lemma known_shape (p n : string) :
  In (p ++ "." ++ n) known_types ->
  dots p = 0%nat /\ dots n = 0%nat /\ p <> "".
Proof.
  intros H. pose proof (known_dots _ H) as Hd.
  rewrite dots_app in Hd. cbn [append dots] in Hd.
  rewrite Ascii.eqb_refl in Hd.
  split; [lia | split; [lia |]].
  intros ->. cbn [In known_types append] in H.
  repeat (destruct H as [H | H]; [discriminate H |]). contradiction.
Qed.

Section EventNames.
Context {adapter : Message.Adapter} {text : gjson.Text}.

Lemma name_of_decoded (obj : json) (ev : I_Event) :
  convertJsonObjectToEvent obj = Returns ev ->
  GetEventName ev = fullTypeName obj /\ In (typeName obj) known_types.
Proof.
  intros H. apply convert_returns in H as (ev0 & ev1 & Hnew & Hs & ->).
  unfold GetEventName, Event.GetEventName. rewrite base_enrich.
  split; [reflexivity | eapply newEvent_known; eauto].
Qed.

Lemma post_type_of_decoded (obj : json) (ev : I_Event) :
  convertJsonObjectToEvent obj = Returns ev ->
  exists ms,
    obj = JObject ms
    /\ field dec_string "post_type" ms "" = Some (GetPostType ev).
Proof.
  intros H. pose proof (name_of_decoded _ _ H) as [_ Hk].
  apply known_shape in Hk as (_ & _ & Hp).
  apply convert_returns in H as (ev0 & ev1 & Hnew & Hs & ->).
  unfold GetPostType, Event.GetPostType. rewrite base_enrich.
  cbn [Event.PostType].
  apply store_base in Hs. rewrite (newEvent_zero _ _ _ Hnew) in Hs.
  destruct obj; cbn [dec_struct] in Hs; try discriminate Hs;
    try (elim Hp; reflexivity).
  eexists. split; [reflexivity |].
  apply Event_fill_keeps in Hs. tauto.
Qed.

(** C1 (amended). For a payload that decodes, with post_type,
    <post_type>_type and sub_type read from the first member of that exact
    key: eventName is "<post_type>.<post_type_type>" when there is no
    sub_type member and "<post_type>.<post_type_type>.<sub_type>" when there
    is one; it has 2 segments in the first case and, in the second, 3 plus
    one for every dot in the sub_type; its first segment is the post_type
    read, which is the event's postType when only one member of the payload
    is stored in the field "post_type". *)
Theorem event_name_of_decoded (obj : json) (ev : I_Event) :
  convertJsonObjectToEvent obj = Returns ev ->
  let sub := gjson.Get obj "sub_type" in
  GetEventName ev
  = (if gjson.Exists sub
     then postType obj ++ "." ++ nextType obj ++ "." ++ gjson.String sub
     else postType obj ++ "." ++ nextType obj)
  /\ segments (GetEventName ev)
     = (if gjson.Exists sub then 3 + dots (gjson.String sub) else 2)%nat
  /\ first_segment (GetEventName ev) = postType obj
  /\ (List.length (selecting "post_type" obj) = 1%nat ->
      GetPostType ev = postType obj).
Proof.
  intros H sub.
  destruct (name_of_decoded _ _ H) as [Hname Hk].
  pose proof (known_dots _ Hk) as Hd.
  unfold typeName in Hk. apply known_shape in Hk as (Hp & Hn & Hne).
  assert (Hfull : fullTypeName obj
                  = if gjson.Exists sub
                    then postType obj ++ "." ++ nextType obj ++ "."
                         ++ gjson.String sub
                    else postType obj ++ "." ++ nextType obj).
  { unfold fullTypeName, subType, typeName. fold sub.
    destruct (gjson.Exists sub); [| reflexivity].
    now rewrite !append_assoc. }
  rewrite Hname, Hfull. clear Hname Hfull.
  split; [reflexivity |]. split; [| split].
  - unfold segments.
    destruct (gjson.Exists sub);
      rewrite !dots_app; cbn [append dots]; rewrite ?dots_app;
      cbn [append dots]; rewrite !Ascii.eqb_refl; lia.
  - destruct (gjson.Exists sub); cbn [append];
      now apply first_segment_join.
  - intros Hone.
    apply post_type_of_decoded in H as (ms & -> & Hfield).
    unfold selecting in Hone. cbn [members_of] in Hone.
    unfold postType in *. cbn [gjson.Get] in *.
    destruct (gjson.first_member "post_type" ms) as [v |] eqn:Hfirst;
      [| elim Hne; reflexivity].
    apply first_member_In in Hfirst.
    assert (Hin : In ("post_type", v) (keep_members (selects "post_type") ms))
      by (apply filter_In; split; [exact Hfirst | reflexivity]).
    destruct (keep_members (selects "post_type") ms) as [|kv [|kv' l]] eqn:Hk;
      try discriminate Hone.
    destruct Hin as [-> | []].
    rewrite (field_single _ _ _ _ _ _ Hk) in Hfield.
    destruct v; cbn [dec_string] in Hfield; try discriminate Hfield.
    + elim Hne; reflexivity.
    + apply Some_eq in Hfield. now rewrite <- Hfield.
Qed.

End EventNames.

(** C1, as it is written, fails on two payloads that decode: one whose
    sub_type has a dot, so that eventName has 4 segments, and one with a
    second member stored in the field "post_type", so that the first segment
    of eventName is not the event's postType. *)
Lemma event_name_counterexample :
  (exists ev,
      convertJsonObjectToEvent (adapter := plain_text) (text := sample_text)
        (JObject [("post_type", JString "notice");
                  ("notice_type", JString "friend_add");
                  ("sub_type", JString "a.b")]) = Returns ev
      /\ GetEventName ev = "notice.friend_add.a.b"
      /\ segments (GetEventName ev) = 4%nat)
  /\ (exists ev,
      convertJsonObjectToEvent (adapter := plain_text) (text := sample_text)
        (JObject [("post_type", JString "notice");
                  ("notice_type", JString "friend_add");
                  ("post_type", JString "request")]) = Returns ev
      /\ first_segment (GetEventName ev) = "notice"
      /\ GetPostType ev = "request"
      /\ first_segment (GetEventName ev) <> GetPostType ev).
Proof.
  split; eexists; (split; [reflexivity |]); repeat split; discriminate.
Qed.

(** ** The struct chosen by the resolver *)

Lemma known_post_type (p n : string) :
  In (p ++ "." ++ n) known_types ->
  In p ["message"; "notice"; "request"; "meta_event"].
Proof.
  intros H. destruct (known_shape _ _ H) as (Hp & _ & _).
  rewrite <- (first_segment_join p n Hp).
  cbn [append] in H. revert H.
  generalize (p ++ String "." n). intros t H.
  cbn [In known_types] in H.
  repeat (destruct H as [<- | H]; [cbn; tauto |]). contradiction.
Qed.

Section Resolver.
Context {adapter : Message.Adapter} {text : gjson.Text}.

Lemma newEvent_sub_type (t s1 s2 : string) :
  t <> "notice.notify" -> newEvent t s1 = newEvent t s2.
Proof.
  intros H. unfold newEvent.
  destruct (String.eqb_spec t "notice.notify"); [contradiction |].
  reflexivity.
Qed.

(** C5. Two payloads that differ only in their sub_type members, the first
    with a typeName other than "notice.notify", get the same struct from the
    switch (or both get none). *)
Theorem sub_type_does_not_choose_the_struct (o1 o2 : json) :
  without "sub_type" o1 = without "sub_type" o2 ->
  typeName o1 <> "notice.notify" ->
  resolve o1 = resolve o2.
Proof.
  intros Hsame Hnot.
  assert (Hget : forall key, (key =? "sub_type")%string = false ->
                   gjson.Get o1 key = gjson.Get o2 key).
  { intros key Hkey.
    rewrite <- (Get_keep (fun k => negb (k =? "sub_type")%string) key o1),
            <- (Get_keep (fun k => negb (k =? "sub_type")%string) key o2)
      by (now rewrite Hkey).
    unfold without in Hsame. now rewrite Hsame. }
  assert (Hpost : postType o2 = postType o1).
  { unfold postType. now rewrite Hget. }
  unfold resolve.
  destruct (String.eqb_spec (postType o1 ++ "_type") "sub_type") as [Hsub | Hsub].
  - (* the second discriminator is sub_type itself: no case of the switch *)
    assert (Hun : forall o, postType o = postType o1 ->
                    ~ In (typeName o) known_types).
    { intros o Ho Hk. unfold typeName in Hk. rewrite Ho in Hk.
      apply known_post_type in Hk. cbn [In] in Hk.
      repeat (destruct Hk as [Hk | Hk];
              [rewrite <- Hk in Hsub; discriminate Hsub |]).
      contradiction. }
    rewrite !newEvent_unknown by auto. reflexivity.
  - assert (Htype : typeName o2 = typeName o1).
    { unfold typeName, nextType. rewrite Hpost.
      rewrite (Hget (postType o1 ++ "_type"));
        [reflexivity | now apply String.eqb_neq]. }
    rewrite Htype. now rewrite (newEvent_sub_type _ (subType o1) (subType o2)).
Qed.

End Resolver.

(** ** The derived fields and the wire *)

Lemma lower_underscore (c : ascii) :
  Ascii.eqb (lower c) "_" = Ascii.eqb c "_".
Proof.
  destruct c as [[] [] [] [] [] [] [] []]; reflexivity.
Qed.

Lemma fold_cons (c : ascii) (r : string) :
  fold (String c r)
  = match r with
    | String c1 r1 =>
        if Ascii.eqb c "197" && Ascii.eqb c1 "191"
        then String "s" (fold r1)
        else
          match r1 with
          | String c2 r2 =>
              if Ascii.eqb c "226" && Ascii.eqb c1 "132" && Ascii.eqb c2 "170"
              then String "k" (fold r2)
              else String (lower c) (fold r)
          | EmptyString => String (lower c) (fold r)
          end
    | EmptyString => String (lower c) (fold r)
    end.
Proof. destruct r; reflexivity. Qed.

(** Folding a key neither adds nor removes an underscore. *)
Lemma fold_underscore (s : string) :
  has_char "_" (fold s) = has_char "_" s.
Proof.
  assert (H : forall n s, (String.length s <= n)%nat ->
                has_char "_" (fold s) = has_char "_" s).
  { clear s. induction n as [|n IH]; intros s Hlen.
    - destruct s; [reflexivity | cbn in Hlen; lia].
    - destruct s as [|c r]; [reflexivity |].
      cbn [String.length] in Hlen.
      assert (Hr : has_char "_" (fold r) = has_char "_" r)
        by (apply IH; lia).
      assert (Hstep : has_char "_" (String (lower c) (fold r))
                      = has_char "_" (String c r))
        by (cbn [has_char]; now rewrite lower_underscore, Hr).
      rewrite fold_cons.
      destruct r as [|c1 r1]; [exact Hstep |].
      cbn [String.length] in Hlen.
      destruct (Ascii.eqb c "197" && Ascii.eqb c1 "191") eqn:E1.
      + apply andb_true_iff in E1 as [Ec Ec1].
        apply Ascii.eqb_eq in Ec, Ec1. subst c c1.
        cbn [has_char]. rewrite IH by lia. reflexivity.
      + destruct r1 as [|c2 r2]; [exact Hstep |].
        cbn [String.length] in Hlen.
        destruct (Ascii.eqb c "226" && Ascii.eqb c1 "132"
                  && Ascii.eqb c2 "170") eqn:E2; [| exact Hstep].
        apply andb_true_iff in E2 as [E2 Ec2].
        apply andb_true_iff in E2 as [Ec Ec1].
        apply Ascii.eqb_eq in Ec, Ec1, Ec2. subst c c1 c2.
        cbn [has_char]. rewrite IH by lia. reflexivity. }
  apply (H (String.length s)). lia.
Qed.

Lemma type_key_not_derived (p : string) : is_derived (p ++ "_type") = false.
Proof.
  destruct (is_derived (p ++ "_type")) eqn:E; [| reflexivity].
  assert (Hu : has_char "_" (fold (p ++ "_type")) = false).
  { unfold is_derived, selects in E. apply orb_true_iff in E as [E | E];
      apply String.eqb_eq in E; rewrite E; reflexivity. }
  rewrite fold_underscore, has_char_app in Hu.
  apply orb_false_iff in Hu as [_ Hu]. discriminate Hu.
Qed.

Ltac not_derived :=
  let k := fresh "k" in
  let Hk := fresh "Hk" in
  intros k Hk; unfold is_derived, selects in *;
  apply String.eqb_eq in Hk; rewrite Hk; reflexivity.

Section Wire.
Context {adapter : Message.Adapter} {text : gjson.Text}.

(** The members named like the derived fields are stored nowhere. *)
Lemma store_strip_derived (obj : json) (ev : I_Event) :
  store (strip_derived obj) ev = store obj ev.
Proof.
  destruct obj; try reflexivity.
  unfold strip_derived. cbn [keep].
  destruct ev; cbn [store dec_struct]; f_equal;
    unfold PrivateMessageEvent.fill, GroupMessageEvent.fill, MessageEvent.fill,
      GroupUploadNoticeEvent.fill, GroupAdminNoticeEvent.fill,
      GroupDecreaseNoticeEvent.fill, GroupIncreaseNoticeEvent.fill,
      GroupBanNoticeEvent.fill, FriendAddNoticeEvent.fill,
      GroupRecallNoticeEvent.fill, FriendRecallNoticeEvent.fill,
      PokeNoticeEvent.fill, LuckyKingNoticeEvent.fill, HonorNoticeEvent.fill,
      NoticeEvent.fill, FriendRequestEvent.fill, GroupRequestEvent.fill,
      LifeCycleMetaEvent.fill, HeartbeatMetaEvent.fill, Event.fill;
    rewrite !(field_keep _ _ (fun k => negb (is_derived k))) by not_derived;
    reflexivity.
Qed.

(** C9. When two payloads differ only in members named EventName or ToMe,
    in any letter case, and the first decodes to an event, the second
    decodes to the same event, so to the same eventName and toMe; filling a
    struct from a payload leaves both fields as they were. *)
Theorem derived_fields_ignore_the_wire (o1 o2 : json) :
  strip_derived o1 = strip_derived o2 ->
  (forall ev1,
      convertJsonObjectToEvent o1 = Returns ev1 ->
      exists ev2,
        convertJsonObjectToEvent o2 = Returns ev2
        /\ ev2 = ev1
        /\ GetEventName ev2 = GetEventName ev1
        /\ IsToMe ev2 = IsToMe ev1)
  /\ (forall ev ev',
      store o1 ev = Some ev' ->
      Event.EventName (base ev') = Event.EventName (base ev)
      /\ Event.ToMe (base ev') = Event.ToMe (base ev)).
Proof.
  intros Hsame.
  assert (Hget : forall key, is_derived key = false ->
                   gjson.Get o1 key = gjson.Get o2 key).
  { intros key Hkey.
    rewrite <- (Get_keep (fun k => negb (is_derived k)) key o1),
            <- (Get_keep (fun k => negb (is_derived k)) key o2)
      by (now rewrite Hkey).
    unfold strip_derived in Hsame. now rewrite Hsame. }
  assert (Hstore : forall ev, store o1 ev = store o2 ev).
  { intros ev. rewrite <- (store_strip_derived o1), <- (store_strip_derived o2).
    now rewrite Hsame. }
  assert (Hpost : postType o1 = postType o2).
  { unfold postType. now rewrite Hget. }
  assert (Htype : typeName o1 = typeName o2).
  { unfold typeName, nextType. rewrite Hpost.
    now rewrite (Hget _ (type_key_not_derived _)). }
  assert (Hsub : subType o1 = subType o2).
  { unfold subType. now rewrite Hget. }
  assert (Hfull : fullTypeName o1 = fullTypeName o2).
  { unfold fullTypeName. rewrite Htype, Hsub. now rewrite Hget. }
  assert (Heq : convertJsonObjectToEvent o1 = convertJsonObjectToEvent o2).
  { unfold convertJsonObjectToEvent, Unmarshal.
    rewrite Htype, Hsub, Hfull.
    destruct (newEvent (typeName o2) (subType o2)) as [[ev0 |] | p];
      try reflexivity.
    now rewrite Hstore. }
  split.
  - intros ev1 H. exists ev1. rewrite <- Heq. auto.
  - intros ev ev'. apply store_keeps_derived.
Qed.

End Wire.

(** ** Members of the wrong JSON type *)

Lemma mismatch_message (v : json) : mismatch v KMessage = false.
Proof. destruct v; reflexivity. Qed.

Lemma dec_int_rejects (bits : Z) (v : json) :
  mismatch v (KInt bits) = true -> forall a, dec_int bits v a = None.
Proof. destruct v; cbn; intros H a; (discriminate H || reflexivity). Qed.

Lemma dec_string_rejects (v : json) :
  mismatch v KString = true -> forall a, dec_string v a = None.
Proof. destruct v; cbn; intros H a; (discriminate H || reflexivity). Qed.

Lemma dec_bool_rejects (v : json) :
  mismatch v KBool = true -> forall a, dec_bool v a = None.
Proof. destruct v; cbn; intros H a; (discriminate H || reflexivity). Qed.

Lemma mismatch_object (ms : members) (tags : schema) :
  existsb (fun kv =>
    existsb (fun t => selects (fst t) (fst kv) && mismatch (snd kv) (snd t))
      tags) ms = true ->
  exists k v name kd,
    In (k, v) ms /\ In (name, kd) tags /\ selects name k = true
    /\ mismatch v kd = true.
Proof.
  intros H. apply existsb_exists in H as ([k v] & Hin & H).
  apply existsb_exists in H as ([name kd] & Htag & H).
  apply andb_true_iff in H as [Hs Hm]. cbn [fst snd] in *.
  exists k, v, name, kd. auto.
Qed.

Lemma dec_struct_rejects {A} (tags : schema)
      (fill : members -> A -> option A) (v : json) :
  refuses tags fill ->
  mismatch v (KStruct tags) = true -> forall a, dec_struct fill v a = None.
Proof.
  intros Hr H a. destruct v; try reflexivity; try discriminate H.
  cbn [dec_struct].
  apply mismatch_object in H as (k & w & name & kd & Hin & Htag & Hs & Hm).
  eapply Hr; eauto.
Qed.

Lemma dec_ptr_rejects {A} (tags : schema) (fill : members -> A -> option A)
      (zero : A) (v : json) :
  refuses tags fill ->
  mismatch v (KPtr tags) = true ->
  forall a, dec_ptr zero (dec_struct fill) v a = None.
Proof.
  intros Hr H a. destruct v; try reflexivity; try discriminate H.
  cbn [dec_ptr dec_struct].
  apply mismatch_object in H as (k & w & name & kd & Hin & Htag & Hs & Hm).
  erewrite Hr; eauto.
Qed.

Create HintDb refuses.

Ltac head_of t :=
  lazymatch t with
  | ?f _ => head_of f
  | _ => t
  end.

Ltac finish_none :=
  repeat match goal with
  | |- match ?x with Some _ => _ | None => None end = None =>
      destruct x; [| reflexivity]
  end; reflexivity.

Ltac refuse_field :=
  match goal with
  | Hm : mismatch _ KMessage = true |- _ =>
      rewrite mismatch_message in Hm; discriminate Hm
  | Hs : selects ?n _ = true |- _ =>
      erewrite (field_refused _ n);
      [ finish_none | eassumption | eassumption
      | first [ apply dec_int_rejects | apply dec_string_rejects
              | apply dec_bool_rejects
              | eapply dec_struct_rejects; [solve [auto with refuses] |]
              | eapply dec_ptr_rejects; [solve [auto with refuses] |] ];
        eassumption ]
  end.

Ltac refuse_own Htag :=
  cbn [In] in Htag;
  repeat (destruct Htag as [Htag | Htag];
          [injection Htag as <- <-; refuse_field |]);
  contradiction.

Ltac refuse_intro Htag :=
  let ms := fresh "ms" in
  let e := fresh "e" in
  let k := fresh "k" in
  let v := fresh "v" in
  let name := fresh "name" in
  let kd := fresh "kd" in
  let Hin := fresh "Hin" in
  let Hs := fresh "Hs" in
  let Hm := fresh "Hm" in
  intros ms e k v name kd Hin Htag Hs Hm;
  match goal with
  | |- ?lhs = None => let h := head_of lhs in unfold h
  end;
  match type of Htag with
  | In _ ?t => let h := head_of t in unfold h in Htag
  end.

(** A struct without an embedded struct. *)
Ltac refuse_plain :=
  let Htag := fresh "Htag" in refuse_intro Htag; refuse_own Htag.

(** A struct that embeds one whose fill [base] refuses. *)
Ltac refuse_embedding base :=
  let Htag := fresh "Htag" in
  refuse_intro Htag;
  apply in_app_or in Htag; destruct Htag as [Htag | Htag];
  [ erewrite base by eassumption; reflexivity | refuse_own Htag ].

Lemma Event_refuses : refuses Event.tags Event.fill.
Proof. refuse_plain. Qed.

Lemma MessageEventSender_refuses :
  refuses MessageEventSender.tags MessageEventSender.fill.
Proof. refuse_plain. Qed.

Lemma GroupMessageEventSender_refuses :
  refuses GroupMessageEventSender.tags GroupMessageEventSender.fill.
Proof. refuse_embedding MessageEventSender_refuses. Qed.

Lemma Anonymous_refuses : refuses Anonymous.tags Anonymous.fill.
Proof. refuse_plain. Qed.

Lemma Status_refuses : refuses Status.tags Status.fill.
Proof. refuse_plain. Qed.

Lemma File_refuses : refuses File.tags File.fill.
Proof. refuse_plain. Qed.

#[local] Hint Resolve MessageEventSender_refuses
  GroupMessageEventSender_refuses Anonymous_refuses Status_refuses
  File_refuses : refuses.

Lemma NoticeEvent_refuses : refuses NoticeEvent.tags NoticeEvent.fill.
Proof. refuse_embedding Event_refuses. Qed.

Lemma GroupUploadNoticeEvent_refuses :
  refuses GroupUploadNoticeEvent.tags GroupUploadNoticeEvent.fill.
Proof. refuse_embedding NoticeEvent_refuses. Qed.

Lemma GroupAdminNoticeEvent_refuses :
  refuses GroupAdminNoticeEvent.tags GroupAdminNoticeEvent.fill.
Proof. refuse_embedding NoticeEvent_refuses. Qed.

Lemma GroupDecreaseNoticeEvent_refuses :
  refuses GroupDecreaseNoticeEvent.tags GroupDecreaseNoticeEvent.fill.
Proof. refuse_embedding NoticeEvent_refuses. Qed.

Lemma GroupIncreaseNoticeEvent_refuses :
  refuses GroupIncreaseNoticeEvent.tags GroupIncreaseNoticeEvent.fill.
Proof. refuse_embedding NoticeEvent_refuses. Qed.

Lemma GroupBanNoticeEvent_refuses :
  refuses GroupBanNoticeEvent.tags GroupBanNoticeEvent.fill.
Proof. refuse_embedding NoticeEvent_refuses. Qed.

Lemma FriendAddNoticeEvent_refuses :
  refuses FriendAddNoticeEvent.tags FriendAddNoticeEvent.fill.
Proof. refuse_embedding NoticeEvent_refuses. Qed.

Lemma GroupRecallNoticeEvent_refuses :
  refuses GroupRecallNoticeEvent.tags GroupRecallNoticeEvent.fill.
Proof. refuse_embedding NoticeEvent_refuses. Qed.

Lemma FriendRecallNoticeEvent_refuses :
  refuses FriendRecallNoticeEvent.tags FriendRecallNoticeEvent.fill.
Proof. refuse_embedding NoticeEvent_refuses. Qed.

Lemma PokeNoticeEvent_refuses :
  refuses PokeNoticeEvent.tags PokeNoticeEvent.fill.
Proof. refuse_embedding NoticeEvent_refuses. Qed.

Lemma LuckyKingNoticeEvent_refuses :
  refuses LuckyKingNoticeEvent.tags LuckyKingNoticeEvent.fill.
Proof. refuse_embedding NoticeEvent_refuses. Qed.

Lemma HonorNoticeEvent_refuses :
  refuses HonorNoticeEvent.tags HonorNoticeEvent.fill.
Proof. refuse_embedding NoticeEvent_refuses. Qed.

Lemma FriendRequestEvent_refuses :
  refuses FriendRequestEvent.tags FriendRequestEvent.fill.
Proof. refuse_embedding Event_refuses. Qed.

Lemma GroupRequestEvent_refuses :
  refuses GroupRequestEvent.tags GroupRequestEvent.fill.
Proof. refuse_embedding Event_refuses. Qed.

Lemma LifeCycleMetaEvent_refuses :
  refuses LifeCycleMetaEvent.tags LifeCycleMetaEvent.fill.
Proof. refuse_embedding Event_refuses. Qed.

Lemma HeartbeatMetaEvent_refuses :
  refuses HeartbeatMetaEvent.tags HeartbeatMetaEvent.fill.
Proof. refuse_embedding Event_refuses. Qed.

Section Mismatch.
Context {adapter : Message.Adapter} {text : gjson.Text}.

Lemma MessageEvent_refuses : refuses MessageEvent.tags MessageEvent.fill.
Proof. refuse_embedding Event_refuses. Qed.

Lemma PrivateMessageEvent_refuses :
  refuses PrivateMessageEvent.tags PrivateMessageEvent.fill.
Proof. refuse_embedding MessageEvent_refuses. Qed.

Lemma GroupMessageEvent_refuses :
  refuses GroupMessageEvent.tags GroupMessageEvent.fill.
Proof. refuse_embedding MessageEvent_refuses. Qed.

(** Within each struct a key selects at most one field, so that looking a
    key up by exact name before the folded name changes nothing. *)
Lemma tags_distinct (ev : I_Event) :
  distinct_folded (map fst (tags_of ev)) = true.
Proof. destruct ev; reflexivity. Qed.

Lemma nested_tags_distinct :
  forallb (fun tags => distinct_folded (map fst tags))
    [MessageEventSender.tags; GroupMessageEventSender.tags; Anonymous.tags;
     Status.tags; File.tags] = true.
Proof. reflexivity. Qed.

Lemma store_refuses (ms : members) (ev : I_Event) (k : string) (v : json)
      (name : string) (kd : kind) :
  In (k, v) ms -> In (name, kd) (tags_of ev) -> selects name k = true ->
  mismatch v kd = true -> store (JObject ms) ev = None.
Proof.
  intros Hin Htag Hs Hm.
  destruct ev; cbn [store dec_struct tags_of] in *;
    [ erewrite PrivateMessageEvent_refuses by eassumption
    | erewrite GroupMessageEvent_refuses by eassumption
    | erewrite GroupUploadNoticeEvent_refuses by eassumption
    | erewrite GroupAdminNoticeEvent_refuses by eassumption
    | erewrite GroupDecreaseNoticeEvent_refuses by eassumption
    | erewrite GroupIncreaseNoticeEvent_refuses by eassumption
    | erewrite GroupBanNoticeEvent_refuses by eassumption
    | erewrite FriendAddNoticeEvent_refuses by eassumption
    | erewrite GroupRecallNoticeEvent_refuses by eassumption
    | erewrite FriendRecallNoticeEvent_refuses by eassumption
    | erewrite PokeNoticeEvent_refuses by eassumption
    | erewrite LuckyKingNoticeEvent_refuses by eassumption
    | erewrite HonorNoticeEvent_refuses by eassumption
    | erewrite FriendRequestEvent_refuses by eassumption
    | erewrite GroupRequestEvent_refuses by eassumption
    | erewrite LifeCycleMetaEvent_refuses by eassumption
    | erewrite HeartbeatMetaEvent_refuses by eassumption ];
    reflexivity.
Qed.

(** C6. When the switch allocates a struct for a payload and the payload
    has a member that is stored in a tagged field of that struct but whose
    JSON type the field does not accept (at the top level or inside a nested
    object), the decoder panics with the error of json.Unmarshal and returns
    no event. *)
Theorem mismatched_member_is_fatal (obj : json) (ev0 : I_Event)
        (k : string) (v : json) (name : string) (kd : kind) :
  newEvent (typeName obj) (subType obj) = Returns (Some ev0) ->
  In (k, v) (members_of obj) ->
  In (name, kd) (tags_of ev0) ->
  selects name k = true ->
  mismatch v kd = true ->
  convertJsonObjectToEvent obj = Panics (PanicError UnmarshalTypeError).
Proof.
  intros Hnew Hin Htag Hs Hm.
  unfold convertJsonObjectToEvent. rewrite Hnew. cbn [Unmarshal].
  destruct obj; cbn [members_of] in Hin; try contradiction.
  now rewrite (store_refuses _ _ _ _ _ _ Hin Htag Hs Hm).
Qed.

End Mismatch.

(** * The theorems at concrete inputs *)

Lemma event_name_of_decoded_witness :
  exists ev,
    decode poke_payload = Returns ev
    /\ GetEventName ev = "notice.notify.poke"
    /\ segments (GetEventName ev) = 3%nat
    /\ first_segment (GetEventName ev) = GetPostType ev.
Proof.
  eexists. split; [vm_compute; reflexivity |].
  destruct (event_name_of_decoded (adapter := plain_text) (text := sample_text)
              poke_payload _ eq_refl) as (Hname & Hseg & Hfirst & Hpost).
  split; [exact Hname |]. split; [exact Hseg |].
  exact (eq_trans Hfirst (eq_sym (Hpost eq_refl))).
Defined.

Lemma unresolvable_type_failures_witness :
  decode oracle_payload = Panics (PanicString "unknown event type: oracle.")
  /\ decode unknown_notify_payload = Panics (PanicError InvalidUnmarshalError).
Proof.
  destruct (unresolvable_type_failures (adapter := plain_text)
              (text := sample_text)) as [Hunknown Hnotify].
  split.
  - apply (Hunknown oracle_payload). vm_compute. intuition discriminate.
  - apply (Hnotify unknown_notify_payload); [reflexivity |].
    vm_compute. intuition discriminate.
Defined.

Lemma toMe_after_enrichment_witness :
  (exists ev, decode private_payload = Returns ev /\ IsToMe ev = true)
  /\ (exists ev, decode group_payload = Returns ev /\ IsToMe ev = false).
Proof.
  split; eexists; (split; [vm_compute; reflexivity |]).
  - destruct (toMe_after_enrichment (adapter := plain_text)
                (text := sample_text) private_payload _ eq_refl)
      as (_ & _ & Hprivate & _).
    apply Hprivate. reflexivity.
  - destruct (toMe_after_enrichment (adapter := plain_text)
                (text := sample_text) group_payload _ eq_refl)
      as (_ & _ & _ & Hgroup).
    destruct (Hgroup eq_refl) as (e & He & Hto).
    injection He as <-. exact Hto.
Defined.

Lemma session_keys_witness :
  GetSessionId (Private (private_message 2 "hi")) = "2"
  /\ GetSessionId (Group (group_message 2 10 "hi")) = "2@10"
  /\ (GetSessionId (Group (group_message 2 10 "hi"))
      = GetSessionId (Group (group_message 2 10 "again")) ->
      (2 = 2 /\ 10 = 10)).
Proof.
  destruct (session_keys (adapter := plain_text)) as (Hp & Hg & Hsame).
  split; [apply (Hp (private_message 2 "hi")) |].
  split; [apply (Hg (group_message 2 10 "hi")) |].
  intros H.
  exact (Hsame (Group (group_message 2 10 "hi"))
               (Group (group_message 2 10 "again")) H).
Defined.

Lemma sub_type_does_not_choose_the_struct_witness :
  resolve (adapter := plain_text) (text := sample_text)
    (JObject (("sub_type", JString "anonymous") :: members_of group_payload))
  = resolve (adapter := plain_text) (text := sample_text) group_payload.
Proof.
  apply sub_type_does_not_choose_the_struct.
  - reflexivity.
  - vm_compute. discriminate.
Defined.

Lemma mismatched_member_is_fatal_witness :
  decode (JObject [("post_type", JString "message");
                   ("message_type", JString "private");
                   ("user_id", JString "2")])
  = Panics (PanicError UnmarshalTypeError).
Proof.
  apply (mismatched_member_is_fatal (adapter := plain_text)
           (text := sample_text) _
           (PrivateMessage PrivateMessageEvent.zero)
           "user_id" (JString "2") "user_id" (KInt 64)).
  - reflexivity.
  - cbn. tauto.
  - cbn. tauto.
  - reflexivity.
  - reflexivity.
Defined.

Lemma description_of_long_content_witness :
  MessageEvent.content (message_of (Private (private_message 2 long_text)))
  = Some (String.concat "" (List.repeat "a" 50)
          ++ "...(省略100个字符)..."
          ++ String.concat "" (List.repeat "a" 50))
  /\ GetEventDescription (Private (private_message 2 long_text))
     = Some ("[私聊消息](#5 来自2): "
             ++ String.concat "" (List.repeat "a" 50)
             ++ "...(省略100个字符)..."
             ++ String.concat "" (List.repeat "a" 50)).
Proof.
  destruct (description_of_long_content (adapter := plain_text)
              (Private (private_message 2 long_text)))
    as (Hc & Hd & _); [vm_compute; reflexivity |].
  split; [exact Hc | exact Hd].
Defined.

Lemma description_is_total_witness :
  (exists d, GetEventDescription (Private (private_message 2 "")) = Some d)
  /\ MessageEvent.content
       (message_of (Group (group_message 2 10 ("line 1" ++ String newline "line 2"))))
     = Some "line 1\nline 2".
Proof.
  split.
  - exact (proj1 (description_is_total (adapter := plain_text)
                    (Private (private_message 2 "")))).
  - destruct (proj2 (description_is_total (adapter := plain_text)
                       (Group (group_message 2 10
                                 ("line 1" ++ String newline "line 2")))))
      as [Hc _]; [vm_compute; discriminate |].
    exact Hc.
Defined.

Lemma derived_fields_ignore_the_wire_witness :
  exists ev,
    decode private_payload = Returns ev
    /\ decode (JObject (("EventName", JString "request.friend")
                        :: ("tome", JBool false)
                        :: members_of private_payload)) = Returns ev
    /\ GetEventName ev = "message.private"
    /\ IsToMe ev = true.
Proof.
  eexists. split; [vm_compute; reflexivity |].
  destruct (derived_fields_ignore_the_wire (adapter := plain_text)
              (text := sample_text) private_payload
              (JObject (("EventName", JString "request.friend")
                        :: ("tome", JBool false)
                        :: members_of private_payload)) eq_refl)
    as [Hsame _].
  destruct (Hsame _ eq_refl) as (ev2 & Hdecode & -> & _ & _).
  split; [exact Hdecode |]. split; reflexivity.
Defined.

Lemma omitted_descriptors_are_nil_witness :
  (exists e,
      decode group_payload = Returns (GroupMessage e)
      /\ GroupMessageEvent.Sender e = None
      /\ GroupMessageEvent.Anonymous e = None)
  /\ (exists e,
      decode (JObject (("sender", JObject []) :: members_of group_payload))
      = Returns (GroupMessage e)
      /\ GroupMessageEvent.Sender e = Some GroupMessageEventSender.zero
      /\ GroupMessageEvent.Anonymous e = None).
Proof.
  split.
  - eexists. split; [vm_compute; reflexivity |].
    destruct (omitted_descriptors_are_nil (adapter := plain_text)
                (text := sample_text) group_payload) as [Hgroup _].
    destruct (Hgroup _ eq_refl) as [Hsender Hanonymous].
    split; [apply Hsender | apply Hanonymous]; reflexivity.
  - eexists. split; [vm_compute; reflexivity |].
    split; [reflexivity |].
    destruct (omitted_descriptors_are_nil (adapter := plain_text)
                (text := sample_text)
                (JObject (("sender", JObject []) :: members_of group_payload)))
      as [Hgroup _].
    destruct (Hgroup _ eq_refl) as [_ Hanonymous].
    apply Hanonymous. reflexivity.
Defined.

(** * Further properties *)

(** ** The cases of the switch *)

Section Switch.
Context {adapter : Message.Adapter} {text : gjson.Text}.

Lemma struct_name_mapEvent (f : Event.t -> Event.t) (ev : I_Event) :
  struct_name (mapEvent f ev) = struct_name ev.
Proof. destruct ev; reflexivity. Qed.

Lemma struct_name_enrich (ev : I_Event) (name : string) :
  struct_name (enrich ev name) = struct_name ev.
Proof.
  destruct (enrich_mapEvent ev name) as [f ->]. apply struct_name_mapEvent.
Qed.

Lemma struct_name_store (v : json) (ev0 ev1 : I_Event) :
  store v ev0 = Some ev1 -> struct_name ev1 = struct_name ev0.
Proof.
  intros H. destruct ev0; cbn [store] in H; unfold option_map in H;
    match type of H with
    | match ?x with Some _ => _ | None => None end = Some _ =>
        destruct x; [| discriminate H]
    end; apply Some_eq in H; subst; reflexivity.
Qed.

Lemma tags_of_struct (ev ev' : I_Event) :
  struct_name ev = struct_name ev' -> tags_of ev = tags_of ev'.
Proof. destruct ev, ev'; cbn; intros H; (reflexivity || discriminate H). Qed.

(** X1. The switch has three outcomes, told apart by typeName and subType
    alone: it allocates a struct exactly when typeName is one of its cases
    and, for "notice.notify", subType is poke, lucky_king or honor; it
    leaves the event nil exactly for "notice.notify" with another subType;
    it panics exactly when typeName is none of its cases. *)
Theorem switch_outcomes (t s : string) :
  ((In t known_types /\ (t = "notice.notify" -> In s notify_sub_types))
   <-> exists ev, newEvent t s = Returns (Some ev) /\ variant_type ev = t)
  /\ ((t = "notice.notify" /\ ~ In s notify_sub_types)
      <-> newEvent t s = Returns None)
  /\ (~ In t known_types
      <-> newEvent t s
          = Panics (PanicString ("unknown event type: " ++ t))).
Proof.
  split; [| split]; split.
  - intros [Hk Hn]. cbn [In known_types] in Hk.
    repeat (destruct Hk as [<- | Hk];
            [try (eexists; split; reflexivity) |]); [| contradiction].
    specialize (Hn eq_refl). cbn [In notify_sub_types] in Hn.
    repeat (destruct Hn as [<- | Hn]; [eexists; split; reflexivity |]).
    contradiction.
  - intros (ev & H & Hv). split; [eapply newEvent_known; eauto |].
    intros ->. cbn [In notify_sub_types].
    switch_cases H; try discriminate H; subst; try discriminate; tauto.
  - intros [-> Hs]. cbn [In notify_sub_types] in Hs. unfold newEvent.
    destruct (String.eqb_spec s "poke"); [intuition congruence |].
    destruct (String.eqb_spec s "lucky_king"); [intuition congruence |].
    destruct (String.eqb_spec s "honor"); [intuition congruence |].
    reflexivity.
  - intros H. cbn [In notify_sub_types].
    switch_cases H; try discriminate H. split; [assumption |].
    intuition congruence.
  - apply newEvent_unknown.
  - intros H Hk. cbn [In known_types] in Hk.
    repeat (destruct Hk as [<- | Hk];
            [unfold newEvent in H; cbn in H;
             repeat match type of H with
                    | context [String.eqb s ?b] =>
                        destruct (String.eqb s b)
                    end; discriminate H |]).
    contradiction.
Qed.

End Switch.

(** ** Event names and structs *)

Lemma prefix_app (a b : string) : String.prefix a (a ++ b) = true.
Proof.
  induction a as [|x a IH]; cbn [append String.prefix].
  - now destruct b.
  - destruct (ascii_dec x x); [exact IH | contradiction].
Qed.

Lemma prefix_refl (a : string) : String.prefix a a = true.
Proof.
  induction a as [|x a IH]; cbn [String.prefix]; [reflexivity |].
  destruct (ascii_dec x x); [exact IH | contradiction].
Qed.

Section NamesAndStructs.
Context {adapter : Message.Adapter} {text : gjson.Text}.

Lemma newEvent_notify_case (t s : string) (ev0 : I_Event) :
  newEvent t s = Returns (Some ev0) ->
  match ev0 with
  | PokeNotice _ => s = "poke"
  | LuckyKingNotice _ => s = "lucky_king"
  | HonorNotice _ => s = "honor"
  | _ => True
  end.
Proof.
  intros H. switch_cases H; try discriminate H;
    injection H as <-; (exact I || assumption).
Qed.

Lemma decoded_parts (obj : json) (ev : I_Event) :
  convertJsonObjectToEvent obj = Returns ev ->
  exists ev0,
    newEvent (typeName obj) (subType obj) = Returns (Some ev0)
    /\ struct_name ev = struct_name ev0
    /\ variant_type ev = typeName obj
    /\ GetEventName ev = fullTypeName obj.
Proof.
  intros H. apply convert_returns in H as (ev0 & ev1 & Hnew & Hs & ->).
  exists ev0. split; [exact Hnew |].
  rewrite struct_name_enrich, variant_type_enrich.
  rewrite (struct_name_store _ _ _ Hs), (variant_type_store _ _ _ Hs).
  rewrite (variant_type_newEvent _ _ _ Hnew).
  unfold GetEventName, Event.GetEventName. rewrite base_enrich.
  repeat split.
Qed.

(** X2. The eventName of a decoded event starts with the typeName of its
    struct: it is that typeName, alone or followed by a dot and the
    sub_type.  For the three structs of "notice.notify" it is exactly
    "notice.notify.poke", "notice.notify.lucky_king" or
    "notice.notify.honor". *)
Theorem event_name_of_struct (obj : json) (ev : I_Event) :
  convertJsonObjectToEvent obj = Returns ev ->
  String.prefix (variant_type ev) (GetEventName ev) = true
  /\ (GetEventName ev = variant_type ev
      \/ exists sub, GetEventName ev = variant_type ev ++ "." ++ sub)
  /\ match ev with
     | PokeNotice _ => GetEventName ev = "notice.notify.poke"
     | LuckyKingNotice _ => GetEventName ev = "notice.notify.lucky_king"
     | HonorNotice _ => GetEventName ev = "notice.notify.honor"
     | _ => True
     end.
Proof.
  intros H. apply decoded_parts in H as (ev0 & Hnew & Hstruct & Hv & Hname).
  rewrite Hname.
  assert (Hfull : fullTypeName obj = variant_type ev
                  \/ fullTypeName obj = variant_type ev ++ "." ++ subType obj).
  { unfold fullTypeName. rewrite Hv.
    destruct (gjson.Exists _); auto. }
  split; [| split].
  - destruct Hfull as [-> | ->]; [apply prefix_refl | apply prefix_app].
  - destruct Hfull as [-> | ->]; eauto.
  - apply newEvent_notify_case in Hnew.
    assert (Hsub : subType obj <> "" -> fullTypeName obj
                   = typeName obj ++ "." ++ subType obj).
    { unfold fullTypeName, subType.
      destruct (gjson.Exists _); [reflexivity | intros E; now elim E]. }
    rewrite <- Hv in Hsub.
    destruct ev; try exact I; destruct ev0; try discriminate Hstruct;
      rewrite Hsub, Hnew by (rewrite Hnew; discriminate); reflexivity.
Qed.

End NamesAndStructs.

Lemma event_name_of_struct_witness :
  exists ev,
    decode poke_payload = Returns ev
    /\ String.prefix "notice.notify" (GetEventName ev) = true
    /\ GetEventName ev = "notice.notify.poke".
Proof.
  eexists. split; [vm_compute; reflexivity |].
  destruct (event_name_of_struct (adapter := plain_text) (text := sample_text)
              poke_payload _ eq_refl) as (Hprefix & _ & Hname).
  split; [exact Hprefix | exact Hname].
Defined.

(** ** The value stored in a field *)

Lemma last_non_null_not_null (vs : list json) (w : json) :
  last_non_null vs = Some w -> w <> JNull.
Proof.
  induction vs as [|v vs IH]; cbn [last_non_null]; [discriminate |].
  destruct (last_non_null vs) as [w' |].
  - intros H. apply Some_eq in H. subst. now apply IH.
  - destruct v; intros H; try discriminate H;
      apply Some_eq in H; subst; discriminate.
Qed.

Lemma last_non_null_In (vs : list json) (v : json) :
  In v vs -> v <> JNull -> last_non_null vs <> None.
Proof.
  induction vs as [|w vs IH]; cbn [In last_non_null]; [contradiction |].
  intros [-> | Hin] Hv.
  - destruct (last_non_null vs); [discriminate |].
    destruct v; (discriminate || now elim Hv).
  - specialize (IH Hin Hv). destruct (last_non_null vs); [discriminate |].
    now elim IH.
Qed.

(** A field whose decoder leaves it alone on null and, on another value,
    does not look at what the field holds, ends up with what the decoder
    makes of the last member stored in it that is not null. *)
Lemma field_last {A} (dec : decoder A) (name : string) (ms : members)
      (cur r : A) :
  (forall a, dec JNull a = Some a) ->
  (forall v a b, v <> JNull -> dec v a = dec v b) ->
  field dec name ms cur = Some r ->
  match last_non_null (map snd (keep_members (selects name) ms)) with
  | None => r = cur
  | Some v => dec v cur = Some r
  end.
Proof.
  intros Hnull Hfree. revert cur. unfold keep_members.
  induction ms as [|[k v] ms IH]; intros cur H; cbn [field] in H.
  - apply Some_eq in H. now subst.
  - cbn [filter fst]. destruct (selects name k).
    + destruct (dec v cur) as [a |] eqn:Hv; [| discriminate H].
      specialize (IH _ H). cbn [map snd last_non_null].
      destruct (last_non_null _) as [w |] eqn:Hw.
      * rewrite <- IH. apply Hfree. eapply last_non_null_not_null; eauto.
      * subst r. destruct v; try exact Hv.
        rewrite Hnull in Hv. apply Some_eq in Hv. now subst.
    + now apply IH.
Qed.

Lemma dec_string_last (name : string) (ms : members) (cur r : string) :
  field dec_string name ms cur = Some r ->
  match last_non_null (map snd (keep_members (selects name) ms)) with
  | None => r = cur
  | Some v => v = JString r
  end.
Proof.
  intros H. apply field_last in H.
  - destruct (last_non_null _) as [v |] eqn:Hl; [| exact H].
    destruct v; cbn [dec_string] in H; try discriminate H.
    + apply last_non_null_not_null in Hl. now elim Hl.
    + apply Some_eq in H. now subst.
  - reflexivity.
  - intros v a b Hv. destruct v; try reflexivity. now elim Hv.
Qed.

Lemma dec_int_last (bits : Z) (name : string) (ms : members) (cur r : Z) :
  field (dec_int bits) name ms cur = Some r ->
  match last_non_null (map snd (keep_members (selects name) ms)) with
  | None => r = cur
  | Some v =>
      exists lit, v = JNumber lit /\ parse_int lit = Some r
                  /\ fits bits r = true
  end.
Proof.
  intros H. apply field_last in H.
  - destruct (last_non_null _) as [v |] eqn:Hl; [| exact H].
    destruct v; cbn [dec_int] in H; try discriminate H.
    + apply last_non_null_not_null in Hl. now elim Hl.
    + destruct (parse_int lit) as [z |] eqn:Hz; [| discriminate H].
      destruct (fits bits z) eqn:Hf; [| discriminate H].
      apply Some_eq in H. subst. eauto.
  - reflexivity.
  - intros v a b Hv. destruct v; try reflexivity. now elim Hv.
Qed.

Lemma Event_fill_fields (ms : members) (e b : Event.t) :
  Event.fill ms e = Some b ->
  field (dec_int 64) "time" ms (Event.Time e) = Some (Event.Time b)
  /\ field (dec_int 64) "self_id" ms (Event.SelfId e) = Some (Event.SelfId b)
  /\ field dec_string "post_type" ms (Event.PostType e)
     = Some (Event.PostType b).
Proof.
  unfold Event.fill. intros H. binds. cbn. auto.
Qed.

Section BaseFields.
Context {adapter : Message.Adapter} {text : gjson.Text}.

Lemma base_of_decoded (obj : json) (ev : I_Event) :
  convertJsonObjectToEvent obj = Returns ev ->
  exists ms b,
    obj = JObject ms
    /\ Event.fill ms Event.zero = Some b
    /\ Event.Time (base ev) = Event.Time b
    /\ Event.SelfId (base ev) = Event.SelfId b
    /\ Event.PostType (base ev) = Event.PostType b
    /\ In (postType obj ++ "." ++ nextType obj) known_types.
Proof.
  intros H. pose proof (name_of_decoded _ _ H) as [_ Hk].
  pose proof (known_shape _ _ Hk) as (_ & _ & Hp).
  apply convert_returns in H as (ev0 & ev1 & Hnew & Hs & ->).
  rewrite base_enrich. cbn [Event.Time Event.SelfId Event.PostType].
  apply store_base in Hs. rewrite (newEvent_zero _ _ _ Hnew) in Hs.
  destruct obj; cbn [dec_struct] in Hs; try discriminate Hs;
    try (elim Hp; reflexivity).
  exists members0, (base ev1). repeat split; assumption.
Qed.

Lemma post_type_stored (obj : json) (ev : I_Event) :
  convertJsonObjectToEvent obj = Returns ev ->
  exists s,
    last_non_null (stored "post_type" obj) = Some (JString s)
    /\ Event.PostType (base ev) = s.
Proof.
  intros H.
  apply base_of_decoded in H as (ms & b & -> & Hfill & _ & _ & Hpost & Hk).
  apply Event_fill_fields in Hfill as (_ & _ & Hfield).
  apply dec_string_last in Hfield.
  unfold stored, selecting. cbn [members_of].
  rewrite Hpost.
  destruct (last_non_null _) as [v |] eqn:Hl.
  - subst v. eauto.
  - exfalso.
    destruct (known_shape _ _ Hk) as (_ & _ & Hne).
    unfold postType in Hne. cbn [gjson.Get] in Hne.
    destruct (gjson.first_member "post_type" ms) as [v |] eqn:Hfirst;
      [| now elim Hne].
    apply first_member_In in Hfirst.
    refine (last_non_null_In _ v _ _ Hl).
    + apply (in_map snd _ ("post_type", v)).
      apply filter_In. split; [exact Hfirst | reflexivity].
    + intros ->. now elim Hne.
Qed.

(** X3. The postType of a decoded event is the string of the last member
    stored in the field "post_type" that is not null (such a member
    exists), whatever the first one, from which the struct was chosen,
    says; IsMessageEvent tests that string. *)
Theorem post_type_is_last_stored (obj : json) (ev : I_Event) :
  convertJsonObjectToEvent obj = Returns ev ->
  exists s,
    last_non_null (stored "post_type" obj) = Some (JString s)
    /\ GetPostType ev = s
    /\ IsMessageEvent ev = (s =? "message")%string.
Proof.
  intros H. destruct (post_type_stored _ _ H) as (s & Hl & Hs).
  exists s. unfold IsMessageEvent, Event.IsMessageEvent, GetPostType,
    Event.GetPostType. rewrite Hs. auto.
Qed.

(** X4. When only one member of the payload is stored in the field
    "post_type", IsMessageEvent holds of a decoded event exactly when its
    struct is one of the two message structs. *)
Theorem IsMessageEvent_of_struct (obj : json) (ev : I_Event) :
  convertJsonObjectToEvent obj = Returns ev ->
  List.length (selecting "post_type" obj) = 1%nat ->
  IsMessageEvent ev = match as_message ev with Some _ => true | None => false end.
Proof.
  intros H Hone.
  destruct (post_type_stored _ _ H) as (s & Hl & Hs').
  unfold IsMessageEvent, Event.IsMessageEvent. rewrite Hs'. clear Hs'.
  destruct (decoded_parts _ _ H) as (_ & _ & _ & Hv & _).
  apply base_of_decoded in H as (ms & b & -> & _ & _ & _ & _ & Hk).
  destruct (known_shape _ _ Hk) as (Hp & _ & Hne).
  assert (Hs : postType (JObject ms) = s).
  { unfold stored, selecting in *. cbn [members_of] in *.
    unfold postType in *. cbn [gjson.Get] in *.
    destruct (gjson.first_member "post_type" ms) as [v |] eqn:Hfirst;
      [| now elim Hne].
    apply first_member_In in Hfirst.
    assert (Hin : In ("post_type", v) (keep_members (selects "post_type") ms))
      by (apply filter_In; split; [exact Hfirst | reflexivity]).
    destruct (keep_members (selects "post_type") ms) as [|kv [|kv' l]];
      try discriminate Hone.
    destruct Hin as [-> | []]. cbn in Hl.
    destruct v; try discriminate Hl. apply Some_eq in Hl.
    now injection Hl. }
  assert (Hseg : first_segment (variant_type ev) = s).
  { rewrite Hv, <- Hs. unfold typeName. cbn [append].
    now apply first_segment_join. }
  rewrite <- Hseg. destruct ev; reflexivity.
Qed.

(** X5. Time and SelfId of a decoded event are within the range of int64;
    each is the integer written by the last member stored in its field that
    is not null, and 0 when there is no such member. *)
Theorem base_integers_of_decoded (obj : json) (ev : I_Event) :
  convertJsonObjectToEvent obj = Returns ev ->
  let value (name : string) (z : Z) :=
    fits 64 z = true
    /\ match last_non_null (stored name obj) with
       | None => z = 0
       | Some v => exists lit, v = JNumber lit /\ parse_int lit = Some z
       end in
  value "time" (Event.Time (base ev))
  /\ value "self_id" (Event.SelfId (base ev)).
Proof.
  intros H.
  apply base_of_decoded in H as (ms & b & -> & Hfill & -> & -> & _ & _).
  apply Event_fill_fields in Hfill as (Htime & Hself & _).
  apply dec_int_last in Htime, Hself.
  cbv zeta beta. unfold stored, selecting. cbn [members_of].
  split.
  - destruct (last_non_null (map snd (keep_members (selects "time") ms)))
      as [v |].
    + destruct Htime as (lit & -> & Hz & Hf). eauto.
    + rewrite Htime. split; reflexivity.
  - destruct (last_non_null (map snd (keep_members (selects "self_id") ms)))
      as [v |].
    + destruct Hself as (lit & -> & Hz & Hf). eauto.
    + rewrite Hself. split; reflexivity.
Qed.

End BaseFields.

Lemma post_type_is_last_stored_witness :
  exists ev,
    decode mixed_post_type_payload = Returns ev
    /\ GetPostType ev = "message"
    /\ IsMessageEvent ev = true
    /\ struct_name ev = "FriendAddNoticeEvent".
Proof.
  eexists. split; [vm_compute; reflexivity |].
  destruct (post_type_is_last_stored (adapter := plain_text)
              (text := sample_text) mixed_post_type_payload _ eq_refl)
    as (s & Hl & Hpost & His).
  vm_compute in Hl. apply Some_eq in Hl. injection Hl as <-.
  split; [exact Hpost |]. split; [exact His | reflexivity].
Defined.

Lemma IsMessageEvent_of_struct_witness :
  (exists ev, decode group_payload = Returns ev /\ IsMessageEvent ev = true)
  /\ (exists ev, decode poke_payload = Returns ev /\ IsMessageEvent ev = false).
Proof.
  split; eexists; (split; [vm_compute; reflexivity |]).
  - exact (IsMessageEvent_of_struct (adapter := plain_text)
             (text := sample_text) group_payload _ eq_refl eq_refl).
  - exact (IsMessageEvent_of_struct (adapter := plain_text)
             (text := sample_text) poke_payload _ eq_refl eq_refl).
Defined.

Lemma base_integers_of_decoded_witness :
  exists ev,
    decode poke_payload = Returns ev
    /\ Event.Time (base ev) = 0
    /\ Event.SelfId (base ev) = 1.
Proof.
  eexists. split; [vm_compute; reflexivity |].
  destruct (base_integers_of_decoded (adapter := plain_text)
              (text := sample_text) poke_payload _ eq_refl)
    as [[_ Htime] [_ Hself]].
  split; [exact Htime |].
  destruct Hself as (lit & Hlit & Hz). injection Hlit as <-.
  vm_compute in Hz. apply Some_eq in Hz. now symmetry.
Defined.

(** ** Pointer fields *)

Lemma final_cons {A} (v : A) (vs : list A) :
  final (v :: vs) = match vs with [] => Some v | _ :: _ => final vs end.
Proof. destruct vs; reflexivity. Qed.

Lemma final_nonempty {A} (v : A) (vs : list A) : final (v :: vs) <> None.
Proof.
  revert v. induction vs as [|w vs IH]; intros v; [discriminate |].
  rewrite final_cons. apply IH.
Qed.

(** A pointer field is nil at the end exactly when the last member stored in
    it is null, or when no member is stored in it and it was nil. *)
Lemma field_ptr_nil {A} (zero : A) (dec : decoder A) (name : string)
      (ms : members) (cur r : option A) :
  field (dec_ptr zero dec) name ms cur = Some r ->
  (r = None <->
   match final (map snd (keep_members (selects name) ms)) with
   | Some v => v = JNull
   | None => cur = None
   end).
Proof.
  revert cur. unfold keep_members.
  induction ms as [|[k v] ms IH]; intros cur H; cbn [field] in H.
  - apply Some_eq in H. subst. reflexivity.
  - cbn [filter fst]. destruct (selects name k); [| now apply IH].
    destruct (dec_ptr zero dec v cur) as [a |] eqn:Hv; [| discriminate H].
    specialize (IH _ H). cbn [map snd]. rewrite final_cons.
    destruct (map snd (filter _ ms)) as [|w ws] eqn:Hws.
    + cbn in IH. rewrite IH.
      destruct v; cbn [dec_ptr] in Hv;
        try (apply Some_eq in Hv; subst a; split; [reflexivity | reflexivity]);
        destruct (dec _ _); try discriminate Hv;
        apply Some_eq in Hv; subst a; split; discriminate.
    + destruct (final (w :: ws)) eqn:Hf; [exact IH |].
      now apply final_nonempty in Hf.
Qed.

Section Descriptors.
Context {adapter : Message.Adapter} {text : gjson.Text}.

Ltac ptr_field name :=
  match goal with
  | H : field _ name _ _ = Some _ |- _ =>
      apply field_ptr_nil in H; rewrite H;
      destruct (final _); [reflexivity | tauto]
  end.

(** X6. In a decoded group message event Sender is nil exactly when the
    payload has no member stored in the field "sender" or the last such
    member is null, and likewise Anonymous for "anonymous"; in a decoded
    private message event likewise Sender for "Sender". *)
Theorem descriptor_is_nil_iff (obj : json) :
  let nil_for (name : string) :=
    match final (stored name obj) with
    | Some v => v = JNull
    | None => True
    end in
  (forall e : GroupMessageEvent.t,
      convertJsonObjectToEvent obj = Returns (GroupMessage e) ->
      (GroupMessageEvent.Sender e = None <-> nil_for "sender")
      /\ (GroupMessageEvent.Anonymous e = None <-> nil_for "anonymous"))
  /\ (forall e : PrivateMessageEvent.t,
      convertJsonObjectToEvent obj = Returns (PrivateMessage e) ->
      PrivateMessageEvent.Sender e = None <-> nil_for "Sender").
Proof.
  cbv zeta beta. unfold stored, selecting. split.
  - intros e H. apply decoded_GroupMessage in H as (e1 & f & Hfill & ->).
    cbn [GroupMessageEvent.mapEvent GroupMessageEvent.Sender
         GroupMessageEvent.Anonymous].
    destruct obj; cbn [dec_struct] in Hfill; try discriminate Hfill.
    + apply Some_eq in Hfill. subst e1. cbn. tauto.
    + cbn [members_of].
      unfold GroupMessageEvent.fill in Hfill. binds.
      cbn [GroupMessageEvent.Sender GroupMessageEvent.Anonymous].
      split; [ptr_field "sender" | ptr_field "anonymous"].
  - intros e H.
    apply decoded_PrivateMessage in H as (e1 & f & Hfill & ->).
    cbn [PrivateMessageEvent.mapEvent PrivateMessageEvent.Sender].
    destruct obj; cbn [dec_struct] in Hfill; try discriminate Hfill.
    + apply Some_eq in Hfill. subst e1. cbn. tauto.
    + cbn [members_of].
      unfold PrivateMessageEvent.fill in Hfill. binds.
      cbn [PrivateMessageEvent.Sender].
      ptr_field "Sender".
Qed.

End Descriptors.

(** ** Members that no field is tagged for *)

Ltac tag_listed := repeat first [left; reflexivity | right].

Section UnknownMembers.
Context {adapter : Message.Adapter} {text : gjson.Text}.

Lemma store_keep (p : string -> bool) (obj : json) (ev : I_Event) :
  (forall name k, In name (map fst (tags_of ev)) ->
                  selects name k = true -> p k = true) ->
  store (keep p obj) ev = store obj ev.
Proof.
  intros Hp. destruct obj; try reflexivity. cbn [keep].
  destruct ev; cbn [store dec_struct]; f_equal;
    unfold PrivateMessageEvent.fill, GroupMessageEvent.fill, MessageEvent.fill,
      GroupUploadNoticeEvent.fill, GroupAdminNoticeEvent.fill,
      GroupDecreaseNoticeEvent.fill, GroupIncreaseNoticeEvent.fill,
      GroupBanNoticeEvent.fill, FriendAddNoticeEvent.fill,
      GroupRecallNoticeEvent.fill, FriendRecallNoticeEvent.fill,
      PokeNoticeEvent.fill, LuckyKingNoticeEvent.fill, HonorNoticeEvent.fill,
      NoticeEvent.fill, FriendRequestEvent.fill, GroupRequestEvent.fill,
      LifeCycleMetaEvent.fill, HeartbeatMetaEvent.fill, Event.fill;
    rewrite !(field_keep _ _ p)
      by (let k := fresh "k" in
          let Hk := fresh "Hk" in
          intros k Hk; refine (Hp _ k _ Hk); tag_listed);
    reflexivity.
Qed.

(** X7. A decoded event does not depend on the members that are neither read
    as discriminators nor stored in a tagged field of its struct: dropping
    every member whose key fails a test that the keys "post_type",
    "sub_type" and <post_type>_type pass, and that every key selecting
    a tagged field of the struct passes, gives the same event. *)
Theorem unknown_members_are_ignored (p : string -> bool) (obj : json)
        (ev : I_Event) :
  convertJsonObjectToEvent obj = Returns ev ->
  p "post_type" = true -> p "sub_type" = true ->
  p (postType obj ++ "_type") = true ->
  (forall name k, In name (map fst (tags_of ev)) ->
                  selects name k = true -> p k = true) ->
  convertJsonObjectToEvent (keep p obj) = Returns ev.
Proof.
  intros H Hpost Hsub Hnext Htags.
  assert (Hp : postType (keep p obj) = postType obj)
    by (unfold postType; now rewrite Get_keep).
  assert (Ht : typeName (keep p obj) = typeName obj)
    by (unfold typeName, nextType; rewrite Hp; now rewrite Get_keep).
  assert (Hs : subType (keep p obj) = subType obj)
    by (unfold subType; now rewrite Get_keep).
  assert (Hf : fullTypeName (keep p obj) = fullTypeName obj)
    by (unfold fullTypeName; rewrite Ht, Hs; now rewrite Get_keep).
  pose proof (decoded_parts _ _ H) as (ev0' & Hnew' & Hstruct & _).
  apply convert_returns in H as (ev0 & ev1 & Hnew & Hstore & ->).
  rewrite Hnew in Hnew'. injection Hnew' as <-.
  apply convert_returns. exists ev0, ev1.
  rewrite Ht, Hs, Hf. split; [exact Hnew | split; [| reflexivity]].
  rewrite store_keep; [exact Hstore |].
  now rewrite <- (tags_of_struct _ _ Hstruct).
Qed.

End UnknownMembers.

(** ** Descriptions are one line *)

Section OneLine.
Context {adapter : Message.Adapter}.

Lemma content_one_line (e : MessageEvent.t) (c : string) :
  MessageEvent.content e = Some c -> has_char newline c = false.
Proof.
  unfold MessageEvent.content. intros H. binds.
  now apply ReplaceAll_clears.
Qed.

(** X8. The description of a message event, whatever the length of its
    content, contains no newline. *)
Theorem description_is_one_line (m : I_MessageEvent) (d : string) :
  GetEventDescription m = Some d -> has_char newline d = false.
Proof.
  intros H.
  destruct (MessageEvent.content (message_of m)) as [c |] eqn:Hc.
  - destruct (GetEventDescription_content m c Hc) as (prefix & Hd & Hp).
    rewrite Hd in H. apply Some_eq in H. subst d.
    rewrite has_char_app, Hp. now apply content_one_line in Hc.
  - destruct m; cbn [GetEventDescription message_of] in *;
      unfold PrivateMessageEvent.GetEventDescription,
        GroupMessageEvent.GetEventDescription in H;
      rewrite Hc in H; discriminate H.
Qed.

End OneLine.

Lemma descriptor_is_nil_iff_witness :
  exists e,
    decode (JObject (("sender", JObject [("age", JNumber "3")])
                     :: ("SENDER", JNull) :: members_of group_payload))
    = Returns (GroupMessage e)
    /\ GroupMessageEvent.Sender e = None.
Proof.
  eexists. split; [vm_compute; reflexivity |].
  destruct (descriptor_is_nil_iff (adapter := plain_text) (text := sample_text)
              (JObject (("sender", JObject [("age", JNumber "3")])
                        :: ("SENDER", JNull) :: members_of group_payload)))
    as [Hgroup _].
  destruct (Hgroup _ eq_refl) as [Hsender _].
  apply Hsender. reflexivity.
Defined.

Lemma unknown_members_are_ignored_witness :
  exists ev,
    decode (JObject (("extra", JArray [JNumber "1"])
                     :: members_of private_payload)) = Returns ev
    /\ decode private_payload = Returns ev.
Proof.
  eexists. split; [vm_compute; reflexivity |].
  apply (unknown_members_are_ignored (adapter := plain_text)
           (text := sample_text)
           (fun k => negb (k =? "extra")%string)
           (JObject (("extra", JArray [JNumber "1"])
                     :: members_of private_payload))).
  - reflexivity.
  - reflexivity.
  - reflexivity.
  - reflexivity.
  - intros name k Hin Hs.
    destruct (String.eqb_spec k "extra") as [-> | Hne]; [| reflexivity].
    vm_compute in Hin.
    repeat (destruct Hin as [<- | Hin]; [vm_compute in Hs; discriminate Hs |]).
    contradiction.
Defined.

Lemma description_is_one_line_witness :
  has_char newline
    ("[私聊消息](#5 来自2): first\nsecond") = false.
Proof.
  apply (description_is_one_line (adapter := plain_text)
           (Private (private_message 2 ("first" ++ String newline "second")))).
  vm_compute. reflexivity.
Defined.

(** ** Runes *)

Lemma byte_range (c : ascii) : 0 <= utf8.byte c < 256.
Proof.
  unfold utf8.byte. pose proof (N_ascii_bounded c). lia.
Qed.

Lemma byte_char (b : Z) : 0 <= b < 256 -> utf8.byte (utf8.char b) = b.
Proof.
  intros H. unfold utf8.byte, utf8.char.
  rewrite N_ascii_embedding by lia. lia.
Qed.

Lemma not_newline (c : ascii) :
  utf8.byte c <> 10 -> Ascii.eqb c newline = false.
Proof.
  intros H. apply Ascii.eqb_neq. intros ->. now apply H.
Qed.

Lemma length_app (a b : string) :
  String.length (a ++ b) = (String.length a + String.length b)%nat.
Proof.
  induction a as [|x a IH]; cbn [append String.length]; [reflexivity |].
  now rewrite IH.
Qed.

Lemma runes_cons (c0 : ascii) (s1 : string) :
  utf8.runes (String c0 s1)
  = let b0 := utf8.byte c0 in
    if b0 <? 128 then b0 :: utf8.runes s1 else
    match utf8.lead b0 with
    | Some (2%nat, lo, hi) =>
        match s1 with
        | String c1 s2 =>
            if utf8.between lo hi (utf8.byte c1)
            then ((b0 - 192) * 64 + (utf8.byte c1 - 128)) :: utf8.runes s2
            else utf8.RuneError :: utf8.runes s1
        | _ => utf8.RuneError :: utf8.runes s1
        end
    | Some (3%nat, lo, hi) =>
        match s1 with
        | String c1 (String c2 s3) =>
            if utf8.between lo hi (utf8.byte c1)
               && utf8.between 128 191 (utf8.byte c2)
            then ((b0 - 224) * 4096 + (utf8.byte c1 - 128) * 64
                  + (utf8.byte c2 - 128)) :: utf8.runes s3
            else utf8.RuneError :: utf8.runes s1
        | _ => utf8.RuneError :: utf8.runes s1
        end
    | Some (4%nat, lo, hi) =>
        match s1 with
        | String c1 (String c2 (String c3 s4)) =>
            if utf8.between lo hi (utf8.byte c1)
               && utf8.between 128 191 (utf8.byte c2)
               && utf8.between 128 191 (utf8.byte c3)
            then ((b0 - 240) * 262144 + (utf8.byte c1 - 128) * 4096
                  + (utf8.byte c2 - 128) * 64 + (utf8.byte c3 - 128))
                 :: utf8.runes s4
            else utf8.RuneError :: utf8.runes s1
        | _ => utf8.RuneError :: utf8.runes s1
        end
    | _ => utf8.RuneError :: utf8.runes s1
    end.
Proof. reflexivity. Qed.

(** Turns the tests on bytes into inequalities. *)
Ltac byte_facts :=
  unfold utf8.valid, utf8.between, utf8.RuneError in *;
  repeat match goal with
  | H : _ && _ = true |- _ => apply andb_true_iff in H; destruct H
  | H : (_ <=? _) = true |- _ => apply Z.leb_le in H
  | H : (_ <? _) = true |- _ => apply Z.ltb_lt in H
  | H : (_ =? _) = true |- _ => apply Z.eqb_eq in H
  end;
  repeat match goal with
  | c : ascii |- _ =>
      lazymatch goal with
      | _ : 0 <= utf8.byte c < 256 |- _ => fail
      | _ => pose proof (byte_range c)
      end
  end.

Ltac valid_goal :=
  byte_facts;
  rewrite ?orb_true_iff, ?andb_true_iff, ?Z.leb_le; lia.

Ltac one_rune r consumed rest :=
  exists r, consumed, rest;
  split; [reflexivity |]; split; [reflexivity |];
  split; [valid_goal |];
  split; [cbn [String.length]; lia |];
  unfold escape; cbn [strings.ReplaceAll];
  byte_facts; rewrite ?not_newline by lia;
  cbn [String.length append]; lia.

Ltac rune_leaf :=
  lazymatch goal with
  | |- decodes_one (String ?c0 ?s) (utf8.RuneError :: utf8.runes ?s) =>
      one_rune utf8.RuneError (String c0 "") s
  | |- decodes_one (String ?c0 (String ?c1 ?s))
                   (?v :: utf8.runes ?s) =>
      one_rune v (String c0 (String c1 "")) s
  | |- decodes_one (String ?c0 (String ?c1 (String ?c2 ?s)))
                   (?v :: utf8.runes ?s) =>
      one_rune v (String c0 (String c1 (String c2 ""))) s
  | |- decodes_one (String ?c0 (String ?c1 (String ?c2 (String ?c3 ?s))))
                   (?v :: utf8.runes ?s) =>
      one_rune v (String c0 (String c1 (String c2 (String c3 "")))) s
  end.

Ltac rune_branches :=
  cbv beta iota;
  repeat match goal with
  | |- decodes_one _ (match ?s with EmptyString => _ | String _ _ => _ end) =>
      destruct s; cbv beta iota
  | |- decodes_one _ (if ?b then _ else _) =>
      let E := fresh "E" in destruct b eqn:E
  end;
  rune_leaf.

(** Decoding takes one to four bytes at a time and gives a
    valid code point for them. *)
Lemma runes_step (c0 : ascii) (s1 : string) :
  decodes_one (String c0 s1) (utf8.runes (String c0 s1)).
Proof.
  rewrite runes_cons. cbv zeta.
  destruct (Z.ltb_spec (utf8.byte c0) 128) as [Hascii | Hhigh].
  - exists (utf8.byte c0), (String c0 ""), s1.
    split; [reflexivity |]. split; [reflexivity |].
    split; [valid_goal |]. split; [cbn; lia |].
    unfold escape. cbn [strings.ReplaceAll].
    destruct (Ascii.eqb c0 newline); cbn; lia.
  - unfold utf8.lead.
    destruct (Z.ltb_spec (utf8.byte c0) 194); [rune_branches |].
    destruct (Z.leb_spec (utf8.byte c0) 223); [rune_branches |].
    destruct (Z.eqb_spec (utf8.byte c0) 224); [rune_branches |].
    destruct (Z.eqb_spec (utf8.byte c0) 237); [rune_branches |].
    destruct (Z.leb_spec (utf8.byte c0) 239); [rune_branches |].
    destruct (Z.eqb_spec (utf8.byte c0) 240); [rune_branches |].
    destruct (Z.leb_spec (utf8.byte c0) 243); [rune_branches |].
    destruct (Z.eqb_spec (utf8.byte c0) 244); rune_branches.
Qed.

Lemma escape_app (a b : string) : escape (a ++ b) = escape a ++ escape b.
Proof. apply ReplaceAll_app. Qed.

Lemma runes_facts (s : string) :
  Forall (fun r => utf8.valid r = true) (utf8.runes s)
  /\ (List.length (utf8.runes s) <= String.length s
      <= 4 * List.length (utf8.runes s))%nat
  /\ (String.length (escape s) <= 4 * List.length (utf8.runes s))%nat.
Proof.
  assert (H : forall n s, (String.length s <= n)%nat ->
    Forall (fun r => utf8.valid r = true) (utf8.runes s)
    /\ (List.length (utf8.runes s) <= String.length s
        <= 4 * List.length (utf8.runes s))%nat
    /\ (String.length (escape s) <= 4 * List.length (utf8.runes s))%nat).
  { clear s. induction n as [|n IH]; intros s Hlen.
    - destruct s; [| cbn in Hlen; lia]. cbn. auto.
    - destruct s as [|c0 s1]; [cbn; auto |].
      destruct (runes_step c0 s1)
        as (r & consumed & rest & Hs & Hr & Hv & Hc & He).
      rewrite Hr, Hs. rewrite Hs in Hlen.
      rewrite escape_app, !length_app in *.
      destruct (IH rest) as (IHv & IHl & IHe); [lia |].
      cbn [List.length]. split; [now constructor | lia]. }
  apply (H (String.length s)). lia.
Qed.

(** X9. Every rune that []rune gives for a string is a Unicode code point
    outside the surrogate range, and each one stands for one to four bytes
    of the string. *)
Theorem runes_are_code_points (s : string) :
  Forall (fun r => 0 <= r <= 55295 \/ 57344 <= r <= 1114111) (utf8.runes s)
  /\ (List.length (utf8.runes s) <= String.length s
      <= 4 * List.length (utf8.runes s))%nat.
Proof.
  destruct (runes_facts s) as (Hv & Hl & _). split; [| exact Hl].
  eapply Forall_impl; [| exact Hv].
  intros r Hr. cbv beta in Hr. unfold utf8.valid, utf8.between in Hr.
  rewrite orb_true_iff, !andb_true_iff, !Z.leb_le in Hr. exact Hr.
Qed.

Ltac arith := Z.div_mod_to_equations; lia.

Ltac tests :=
  repeat (match goal with
          | |- context [Z.ltb ?a ?b] =>
              destruct (Z.ltb_spec a b); try solve [exfalso; arith]
          | |- context [Z.leb ?a ?b] =>
              destruct (Z.leb_spec a b); try solve [exfalso; arith]
          | |- context [Z.eqb ?a ?b] =>
              destruct (Z.eqb_spec a b); try solve [exfalso; arith]
          end; cbn [andb]; cbv beta iota).

(** The bytes written for a valid rune decode to that rune. *)
Lemma runes_encode (r : utf8.rune) (s : string) :
  utf8.valid r = true -> utf8.runes (utf8.encode r ++ s) = r :: utf8.runes s.
Proof.
  intros Hv. unfold utf8.encode. rewrite Hv.
  unfold utf8.valid, utf8.between in Hv.
  rewrite orb_true_iff, !andb_true_iff, !Z.leb_le in Hv.
  destruct (Z.ltb_spec r 128); [| destruct (Z.ltb_spec r 2048);
    [| destruct (Z.ltb_spec r 65536)]];
    cbn [append]; rewrite runes_cons; cbv zeta;
    rewrite !byte_char by arith;
    unfold utf8.lead, utf8.between; tests;
    f_equal; arith.
Qed.

Lemma runes_string_of_runes (rs : list utf8.rune) :
  Forall (fun r => utf8.valid r = true) rs ->
  utf8.runes (utf8.string_of_runes rs) = rs.
Proof.
  induction 1 as [|r rs Hr _ IH]; [reflexivity |].
  cbn [utf8.string_of_runes]. now rewrite runes_encode, IH.
Qed.

(** X10. Writing valid runes as a string and reading the string back gives
    the same runes; so the two parts that a long description keeps of a
    content, its runes before position [n] and from position [n] on, are
    read back as exactly those runes. *)
Theorem runes_round_trip :
  (forall rs : list utf8.rune,
      Forall (fun r => utf8.valid r = true) rs ->
      utf8.runes (utf8.string_of_runes rs) = rs)
  /\ (forall (s : string) (n : nat),
      utf8.runes (utf8.string_of_runes (firstn n (utf8.runes s)))
      = firstn n (utf8.runes s)
      /\ utf8.runes (utf8.string_of_runes (skipn n (utf8.runes s)))
         = skipn n (utf8.runes s)).
Proof.
  split; [exact runes_string_of_runes |].
  intros s n. destruct (runes_facts s) as (Hv & _).
  rewrite <- (firstn_skipn n (utf8.runes s)) in Hv.
  apply Forall_app in Hv as [Hfirst Hlast].
  split; now apply runes_string_of_runes.
Qed.

Lemma runes_round_trip_witness :
  utf8.runes (utf8.string_of_runes [30465; 30053; 10; 128512])
  = [30465; 30053; 10; 128512].
Proof.
  apply (proj1 runes_round_trip).
  repeat constructor.
Defined.

(** ** The size of a description *)

Lemma encode_escaped (r : utf8.rune) :
  (String.length (escape (utf8.encode r)) <= 4)%nat.
Proof.
  unfold utf8.encode.
  assert (Hv : utf8.valid (if utf8.valid r then r else utf8.RuneError) = true)
    by (destruct (utf8.valid r) eqn:E; [exact E | reflexivity]).
  generalize dependent (if utf8.valid r then r else utf8.RuneError).
  clear r. intros r Hv.
  unfold utf8.valid, utf8.between in Hv.
  rewrite orb_true_iff, !andb_true_iff, !Z.leb_le in Hv.
  destruct (Z.ltb_spec r 128); [| destruct (Z.ltb_spec r 2048);
    [| destruct (Z.ltb_spec r 65536)]];
    unfold escape; cbn [strings.ReplaceAll].
  - destruct (Ascii.eqb _ newline); cbn; lia.
  - rewrite !not_newline by (rewrite byte_char by arith; arith). cbn. lia.
  - rewrite !not_newline by (rewrite byte_char by arith; arith). cbn. lia.
  - rewrite !not_newline by (rewrite byte_char by arith; arith). cbn. lia.
Qed.

Lemma string_of_runes_escaped (rs : list utf8.rune) :
  (String.length (escape (utf8.string_of_runes rs)) <= 4 * List.length rs)%nat.
Proof.
  induction rs as [|r rs IH]; [cbn; lia |].
  cbn [utf8.string_of_runes List.length].
  rewrite escape_app, length_app. pose proof (encode_escaped r). lia.
Qed.

Section Size.
Context {adapter : Message.Adapter}.

(** X11. The content of a description is bounded whatever the length of the
    message: at most 400 bytes when the message has at most 100 characters
    (4 for each character), and otherwise at most 423 bytes and the digits
    of the number of characters left out. *)
Theorem content_is_bounded (e : MessageEvent.t) (c : string) :
  let rs := utf8.runes (Message.String (MessageEvent.Message e)) in
  MessageEvent.content e = Some c ->
  (len rs <= 100 ->
   (String.length c <= 4 * List.length rs)%nat
   /\ (String.length c <= 400)%nat)
  /\ (100 < len rs ->
      (String.length c <= 423 + String.length (fmt.d (len rs - 100)))%nat).
Proof.
  intros rs H. split; intros Hlen.
  - rewrite content_short in H by exact Hlen.
    apply Some_eq in H. subst c.
    destruct (runes_facts (Message.String (MessageEvent.Message e)))
      as (_ & _ & He).
    fold rs in He. unfold escape in He. unfold len in Hlen. lia.
  - rewrite (content_long e Hlen) in H. apply Some_eq in H. subst c.
    fold rs. rewrite !length_app.
    pose proof (string_of_runes_escaped (firstn 50 rs)) as Hfirst.
    pose proof (string_of_runes_escaped (skipn (Z.to_nat (len rs - 50)) rs))
      as Hlast.
    rewrite length_firstn in Hfirst. rewrite length_skipn in Hlast.
    unfold escape in Hfirst, Hlast. unfold len in *.
    change (String.length "...(省略") with 10%nat.
    change (String.length "个字符)...") with 13%nat.
    lia.
Qed.

End Size.

Lemma content_is_bounded_witness :
  (String.length ("aaaaaaaaaaaaaaaaaaaaaaaaaaaaaaaaaaaaaaaaaaaaaaaaaa"
                  ++ "...(省略100个字符)..."
                  ++ "aaaaaaaaaaaaaaaaaaaaaaaaaaaaaaaaaaaaaaaaaaaaaaaaaa")
   <= 423 + 3)%nat.
Proof.
  apply (content_is_bounded (adapter := plain_text)
           (MessageEvent.mk (adapter := plain_text) Event.zero "" "" 0 0
              long_text "" 0)).
  - vm_compute. reflexivity.
  - vm_compute. reflexivity.
Defined.

(** ** Integers as they are written and read *)

Ltac digit_step :=
  match goal with
  | |- context [is_digit ?c] => change (is_digit c) with true
  end;
  cbv iota;
  match goal with
  | |- context [Z.of_N (N_of_ascii ?c)] =>
      let v := eval vm_compute in (Z.of_N (N_of_ascii c)) in
      change (Z.of_N (N_of_ascii c)) with v
  end.

Lemma digits_value_acc (d : Decimal.uint) (p : positive) :
  digits_value (NilEmpty.string_of_uint d) (Z.pos p)
  = Some (Z.pos (Pos.of_uint_acc d p)).
Proof.
  revert p. induction d; intros p;
    cbn [NilEmpty.string_of_uint digits_value Pos.of_uint_acc];
    [reflexivity | ..];
    digit_step; rewrite <- IHd; f_equal; lia.
Qed.

Lemma digits_value_zero (d : Decimal.uint) :
  digits_value (NilEmpty.string_of_uint d) 0 = Some (Z.of_N (Pos.of_uint d)).
Proof.
  induction d; cbn [NilEmpty.string_of_uint digits_value Pos.of_uint];
    [reflexivity | ..]; digit_step;
    [ exact IHd | .. ];
    match goal with
    | |- digits_value _ ?acc = Some (Z.of_N (N.pos (Pos.of_uint_acc _ ?p))) =>
        change acc with (Z.pos p)
    end; apply digits_value_acc.
Qed.

Lemma parse_int_uint (d : Decimal.uint) :
  d <> Decimal.Nil ->
  parse_int (NilEmpty.string_of_uint d)
  = digits_value (NilEmpty.string_of_uint d) 0
  /\ parse_int (String "-" (NilEmpty.string_of_uint d))
     = option_map Z.opp (digits_value (NilEmpty.string_of_uint d) 0).
Proof.
  intros H. destruct d; [now elim H | ..]; split; reflexivity.
Qed.

(** The text of [%d] is read back by ParseInt as the same integer. *)
Lemma parse_int_fmt_d (z : Z) : parse_int (fmt.d z) = Some z.
Proof.
  unfold fmt.d. destruct z as [|p |p]; [reflexivity | |];
    cbn [Z.to_int NilEmpty.string_of_int];
    destruct (parse_int_uint (Pos.to_uint p)
                (DecimalPos.Unsigned.to_uint_nonnil p)) as [Hpos Hneg];
    [rewrite Hpos | rewrite Hneg];
    rewrite digits_value_zero, DecimalPos.Unsigned.of_to; reflexivity.
Qed.

Section SessionsOfPayloads.
Context {adapter : Message.Adapter} {text : gjson.Text}.

Lemma MessageEvent_user_id (ms : members) (e0 e1 : MessageEvent.t) :
  MessageEvent.fill ms e0 = Some e1 ->
  field (dec_int 64) "user_id" ms (MessageEvent.UserId e0)
  = Some (MessageEvent.UserId e1).
Proof.
  unfold MessageEvent.fill. intros H. binds. reflexivity.
Qed.

Lemma user_id_as_written (ms : members) (cur u : Z) (name : string) :
  field (dec_int 64) name ms cur = Some u ->
  (forall z,
      last_non_null (map snd (keep_members (selects name) ms))
      = Some (JNumber (fmt.d z)) -> u = z)
  /\ (last_non_null (map snd (keep_members (selects name) ms)) = None ->
      u = cur).
Proof.
  intros H. apply dec_int_last in H. split.
  - intros z Hl. rewrite Hl in H. destruct H as (lit & Hlit & Hz & _).
    injection Hlit as <-. rewrite parse_int_fmt_d in Hz. congruence.
  - intros Hl. now rewrite Hl in H.
Qed.

(** X12. The session key of a decoded private message event is the integer
    of the last member stored in "user_id" that is not null, printed in
    decimal: when that member is written as the decimal text of an integer,
    the key is that text, and when there is no such member the key is "0".
    The key of a decoded group message event is made in the same way of the
    members stored in "user_id" and "group_id". *)
Theorem session_key_of_payload (obj : json) :
  let written (name : string) (key : string) :=
    (forall z, last_non_null (stored name obj) = Some (JNumber (fmt.d z)) ->
               key = fmt.d z)
    /\ (last_non_null (stored name obj) = None -> key = "0") in
  (forall e : PrivateMessageEvent.t,
      convertJsonObjectToEvent obj = Returns (PrivateMessage e) ->
      written "user_id" (GetSessionId (Private e)))
  /\ (forall e : GroupMessageEvent.t,
      convertJsonObjectToEvent obj = Returns (GroupMessage e) ->
      exists user group,
        GetSessionId (Group e) = user ++ "@" ++ group
        /\ written "user_id" user /\ written "group_id" group).
Proof.
  cbv zeta beta. unfold stored, selecting. split.
  - intros e H. apply decoded_PrivateMessage in H as (e1 & f & Hfill & ->).
    cbn [GetSessionId]. unfold PrivateMessageEvent.GetSessionId,
      MessageEvent.GetSessionId.
    cbn [PrivateMessageEvent.mapEvent PrivateMessageEvent.MessageEvent
         MessageEvent.mapEvent MessageEvent.UserId].
    destruct obj; cbn [dec_struct] in Hfill; try discriminate Hfill.
    + apply Some_eq in Hfill. subst e1. cbn. split; [discriminate | reflexivity].
    + cbn [members_of]. unfold PrivateMessageEvent.fill in Hfill. binds.
      cbn [PrivateMessageEvent.MessageEvent].
      match goal with
      | H : MessageEvent.fill _ _ = Some _ |- _ =>
          apply MessageEvent_user_id, user_id_as_written in H;
          destruct H as [Hz Hnone]
      end.
      split; [intros zz Hl; now rewrite (Hz zz Hl) |].
      intros Hl. now rewrite (Hnone Hl).
  - intros e H. apply decoded_GroupMessage in H as (e1 & f & Hfill & ->).
    cbn [GetSessionId]. unfold GroupMessageEvent.GetSessionId.
    cbn [GroupMessageEvent.mapEvent GroupMessageEvent.MessageEvent
         GroupMessageEvent.GroupId MessageEvent.mapEvent MessageEvent.UserId].
    eexists _, _. split; [reflexivity |].
    destruct obj; cbn [dec_struct] in Hfill; try discriminate Hfill.
    + apply Some_eq in Hfill. subst e1. cbn.
      repeat split; (discriminate || reflexivity).
    + cbn [members_of]. unfold GroupMessageEvent.fill in Hfill. binds.
      cbn [GroupMessageEvent.MessageEvent GroupMessageEvent.GroupId].
      match goal with
      | H : MessageEvent.fill _ _ = Some _ |- _ =>
          apply MessageEvent_user_id, user_id_as_written in H;
          destruct H as [Hz Hnone]
      end.
      match goal with
      | H : field _ "group_id" _ _ = Some _ |- _ =>
          apply user_id_as_written in H; destruct H as [Hg Hgnone]
      end.
      split; split.
      * intros zz Hl. now rewrite (Hz zz Hl).
      * intros Hl. now rewrite (Hnone Hl).
      * intros zz Hl. now rewrite (Hg zz Hl).
      * intros Hl. now rewrite (Hgnone Hl).
Qed.

End SessionsOfPayloads.

(** ** Numbers that an integer field does not hold *)

Lemma dec_int_bad (bits : Z) (v : json) :
  bad_number v (KInt bits) = true -> forall a, dec_int bits v a = None.
Proof.
  destruct v; cbn [bad_number dec_int]; try discriminate.
  destruct (parse_int lit) as [z |]; [| reflexivity].
  destruct (fits bits z); [discriminate | reflexivity].
Qed.

Ltac number_field :=
  match goal with
  | Hm : bad_number _ (KInt _) = true, Hs : selects ?n _ = true |- _ =>
      erewrite (field_refused _ n);
      [ finish_none | eassumption | eassumption
      | apply dec_int_bad; exact Hm ]
  | Hm : bad_number ?v _ = true |- _ => exfalso; destruct v; discriminate Hm
  end.

Ltac number_own Htag :=
  cbn [In] in Htag;
  repeat (destruct Htag as [Htag | Htag];
          [injection Htag as <- <-; number_field |]);
  contradiction.

Ltac number_embedding base :=
  let Htag := fresh "Htag" in
  refuse_intro Htag;
  apply in_app_or in Htag; destruct Htag as [Htag | Htag];
  [ erewrite base by eassumption; reflexivity | number_own Htag ].

Lemma Event_refuses_number : refuses_number Event.tags Event.fill.
Proof. let Htag := fresh "Htag" in refuse_intro Htag; number_own Htag. Qed.

Lemma NoticeEvent_refuses_number :
  refuses_number NoticeEvent.tags NoticeEvent.fill.
Proof. number_embedding Event_refuses_number. Qed.

Lemma GroupUploadNoticeEvent_refuses_number :
  refuses_number GroupUploadNoticeEvent.tags GroupUploadNoticeEvent.fill.
Proof. number_embedding NoticeEvent_refuses_number. Qed.

Lemma GroupAdminNoticeEvent_refuses_number :
  refuses_number GroupAdminNoticeEvent.tags GroupAdminNoticeEvent.fill.
Proof. number_embedding NoticeEvent_refuses_number. Qed.

Lemma GroupDecreaseNoticeEvent_refuses_number :
  refuses_number GroupDecreaseNoticeEvent.tags GroupDecreaseNoticeEvent.fill.
Proof. number_embedding NoticeEvent_refuses_number. Qed.

Lemma GroupIncreaseNoticeEvent_refuses_number :
  refuses_number GroupIncreaseNoticeEvent.tags GroupIncreaseNoticeEvent.fill.
Proof. number_embedding NoticeEvent_refuses_number. Qed.

Lemma GroupBanNoticeEvent_refuses_number :
  refuses_number GroupBanNoticeEvent.tags GroupBanNoticeEvent.fill.
Proof. number_embedding NoticeEvent_refuses_number. Qed.

Lemma FriendAddNoticeEvent_refuses_number :
  refuses_number FriendAddNoticeEvent.tags FriendAddNoticeEvent.fill.
Proof. number_embedding NoticeEvent_refuses_number. Qed.

Lemma GroupRecallNoticeEvent_refuses_number :
  refuses_number GroupRecallNoticeEvent.tags GroupRecallNoticeEvent.fill.
Proof. number_embedding NoticeEvent_refuses_number. Qed.

Lemma FriendRecallNoticeEvent_refuses_number :
  refuses_number FriendRecallNoticeEvent.tags FriendRecallNoticeEvent.fill.
Proof. number_embedding NoticeEvent_refuses_number. Qed.

Lemma PokeNoticeEvent_refuses_number :
  refuses_number PokeNoticeEvent.tags PokeNoticeEvent.fill.
Proof. number_embedding NoticeEvent_refuses_number. Qed.

Lemma LuckyKingNoticeEvent_refuses_number :
  refuses_number LuckyKingNoticeEvent.tags LuckyKingNoticeEvent.fill.
Proof. number_embedding NoticeEvent_refuses_number. Qed.

Lemma HonorNoticeEvent_refuses_number :
  refuses_number HonorNoticeEvent.tags HonorNoticeEvent.fill.
Proof. number_embedding NoticeEvent_refuses_number. Qed.

Lemma FriendRequestEvent_refuses_number :
  refuses_number FriendRequestEvent.tags FriendRequestEvent.fill.
Proof. number_embedding Event_refuses_number. Qed.

Lemma GroupRequestEvent_refuses_number :
  refuses_number GroupRequestEvent.tags GroupRequestEvent.fill.
Proof. number_embedding Event_refuses_number. Qed.

Lemma LifeCycleMetaEvent_refuses_number :
  refuses_number LifeCycleMetaEvent.tags LifeCycleMetaEvent.fill.
Proof. number_embedding Event_refuses_number. Qed.

Lemma HeartbeatMetaEvent_refuses_number :
  refuses_number HeartbeatMetaEvent.tags HeartbeatMetaEvent.fill.
Proof. number_embedding Event_refuses_number. Qed.

Section BadNumbers.
Context {adapter : Message.Adapter} {text : gjson.Text}.

Lemma MessageEvent_refuses_number :
  refuses_number MessageEvent.tags MessageEvent.fill.
Proof. number_embedding Event_refuses_number. Qed.

Lemma PrivateMessageEvent_refuses_number :
  refuses_number PrivateMessageEvent.tags PrivateMessageEvent.fill.
Proof. number_embedding MessageEvent_refuses_number. Qed.

Lemma GroupMessageEvent_refuses_number :
  refuses_number GroupMessageEvent.tags GroupMessageEvent.fill.
Proof. number_embedding MessageEvent_refuses_number. Qed.

Lemma store_refuses_number (ms : members) (ev : I_Event) (k : string)
      (v : json) (name : string) (kd : kind) :
  In (k, v) ms -> In (name, kd) (tags_of ev) -> selects name k = true ->
  bad_number v kd = true -> store (JObject ms) ev = None.
Proof.
  intros Hin Htag Hs Hm.
  destruct ev; cbn [store dec_struct tags_of] in *;
    [ erewrite PrivateMessageEvent_refuses_number by eassumption
    | erewrite GroupMessageEvent_refuses_number by eassumption
    | erewrite GroupUploadNoticeEvent_refuses_number by eassumption
    | erewrite GroupAdminNoticeEvent_refuses_number by eassumption
    | erewrite GroupDecreaseNoticeEvent_refuses_number by eassumption
    | erewrite GroupIncreaseNoticeEvent_refuses_number by eassumption
    | erewrite GroupBanNoticeEvent_refuses_number by eassumption
    | erewrite FriendAddNoticeEvent_refuses_number by eassumption
    | erewrite GroupRecallNoticeEvent_refuses_number by eassumption
    | erewrite FriendRecallNoticeEvent_refuses_number by eassumption
    | erewrite PokeNoticeEvent_refuses_number by eassumption
    | erewrite LuckyKingNoticeEvent_refuses_number by eassumption
    | erewrite HonorNoticeEvent_refuses_number by eassumption
    | erewrite FriendRequestEvent_refuses_number by eassumption
    | erewrite GroupRequestEvent_refuses_number by eassumption
    | erewrite LifeCycleMetaEvent_refuses_number by eassumption
    | erewrite HeartbeatMetaEvent_refuses_number by eassumption ];
    reflexivity.
Qed.

(** X13. When the switch allocates a struct for a payload and a member of
    the payload stored in an integer field of that struct is a number that
    is not written as an integer (it has a fraction or an exponent) or that
    is outside the range of the field (int64, or int32 for message_id and
    font), the decoder panics with the error of json.Unmarshal. *)
Theorem bad_number_is_fatal (obj : json) (ev0 : I_Event) (k lit name : string)
        (bits : Z) :
  newEvent (typeName obj) (subType obj) = Returns (Some ev0) ->
  In (k, JNumber lit) (members_of obj) ->
  In (name, KInt bits) (tags_of ev0) ->
  selects name k = true ->
  (forall z, parse_int lit = Some z ->
             ~ (- 2 ^ (bits - 1) <= z < 2 ^ (bits - 1))) ->
  convertJsonObjectToEvent obj = Panics (PanicError UnmarshalTypeError).
Proof.
  intros Hnew Hin Htag Hs Hbad.
  assert (Hm : bad_number (JNumber lit) (KInt bits) = true).
  { cbn [bad_number]. destruct (parse_int lit) as [z |]; [| reflexivity].
    specialize (Hbad z eq_refl). unfold fits.
    destruct (Z.leb_spec (- 2 ^ (bits - 1)) z);
      destruct (Z.ltb_spec z (2 ^ (bits - 1))); try reflexivity.
    elim Hbad. lia. }
  unfold convertJsonObjectToEvent. rewrite Hnew. cbn [Unmarshal].
  destruct obj; cbn [members_of] in Hin; try contradiction.
  now rewrite (store_refuses_number _ _ _ _ _ _ Hin Htag Hs Hm).
Qed.

End BadNumbers.

Lemma bad_number_is_fatal_witness :
  decode (JObject (("message_id", JNumber "2147483648")
                   :: members_of private_payload))
  = Panics (PanicError UnmarshalTypeError)
  /\ decode (JObject (("time", JNumber "1.5") :: members_of private_payload))
     = Panics (PanicError UnmarshalTypeError).
Proof.
  split.
  - apply (bad_number_is_fatal (adapter := plain_text) (text := sample_text)
             _ (PrivateMessage PrivateMessageEvent.zero)
             "message_id" "2147483648" "message_id" 32).
    + reflexivity.
    + left. reflexivity.
    + vm_compute. tauto.
    + reflexivity.
    + intros z Hz. vm_compute in Hz. apply Some_eq in Hz. subst z.
      vm_compute. intros [_ H]. discriminate H.
  - apply (bad_number_is_fatal (adapter := plain_text) (text := sample_text)
             _ (PrivateMessage PrivateMessageEvent.zero)
             "time" "1.5" "time" 64).
    + reflexivity.
    + left. reflexivity.
    + vm_compute. tauto.
    + reflexivity.
    + intros z Hz. vm_compute in Hz. discriminate Hz.
Defined.

Lemma session_key_of_payload_witness :
  exists e,
    decode private_payload = Returns (PrivateMessage e)
    /\ GetSessionId (Private e) = "2".
Proof.
  eexists. split; [vm_compute; reflexivity |].
  destruct (session_key_of_payload (adapter := plain_text)
              (text := sample_text) private_payload) as [Hprivate _].
  destruct (Hprivate _ eq_refl) as [Hwritten _].
  apply (Hwritten 2). reflexivity.
Defined.

(** ** The discriminators of a payload that decodes *)

Section Discriminators.
Context {adapter : Message.Adapter} {text : gjson.Text}.

Lemma tags_post_type (ev : I_Event) :
  In ("post_type", KString) (tags_of ev).
Proof. destruct ev; tag_listed. Qed.

Lemma tags_next_type (ev : I_Event) (p n : string) :
  variant_type ev = p ++ "." ++ n -> dots p = 0%nat ->
  In (p ++ "_type", KString) (tags_of ev).
Proof.
  intros Hv Hp.
  assert (Hseg : p = first_segment (variant_type ev))
    by (rewrite Hv; cbn [append]; now rewrite first_segment_join).
  destruct ev; cbn in Hseg; subst p; tag_listed.
Qed.

(** A member stored in a string field of a struct that is filled is null or
    a string. *)
Lemma stored_string (ms : members) (ev0 ev1 : I_Event) (k : string)
      (v : json) (name : string) :
  store (JObject ms) ev0 = Some ev1 ->
  In (k, v) ms -> In (name, KString) (tags_of ev0) ->
  selects name k = true ->
  v = JNull \/ exists s, v = JString s.
Proof.
  intros Hs Hin Htag Hsel.
  destruct v; eauto;
    rewrite (store_refuses ms ev0 k _ name KString Hin Htag Hsel eq_refl) in Hs;
    discriminate Hs.
Qed.

Lemma discriminators_of_decoded (obj : json) (ev : I_Event) :
  convertJsonObjectToEvent obj = Returns ev ->
  exists p n,
    gjson.Get obj "post_type" = Some (JString p)
    /\ gjson.Get obj (p ++ "_type") = Some (JString n)
    /\ variant_type ev = p ++ "." ++ n
    /\ In p ["message"; "notice"; "request"; "meta_event"].
Proof.
  intros H.
  destruct (decoded_parts _ _ H) as (ev0' & Hnew' & _ & Hv & _).
  pose proof (name_of_decoded _ _ H) as [_ Hk].
  apply convert_returns in H as (ev0 & ev1 & Hnew & Hs & ->).
  rewrite Hnew in Hnew'. injection Hnew' as <-.
  rewrite variant_type_enrich in Hv.
  assert (Hv0 : variant_type ev0 = typeName obj)
    by (now apply variant_type_newEvent in Hnew).
  unfold typeName in *.
  pose proof (known_shape _ _ Hk) as (Hp & _ & Hne).
  pose proof (known_post_type _ _ Hk) as Hfour.
  assert (Hn : nextType obj <> "").
  { intros Hn. rewrite Hn in Hk. cbn [In] in Hfour.
    repeat (destruct Hfour as [Hfour | Hfour];
            [rewrite <- Hfour in Hk; cbn [In known_types append] in Hk;
             repeat (destruct Hk as [Hk | Hk]; [discriminate Hk |]);
             contradiction |]).
    contradiction. }
  exists (postType obj), (nextType obj).
  destruct obj; try (now elim Hne).
  pose proof (tags_next_type ev0 _ _ Hv0 Hp) as Htag.
  unfold nextType in *. unfold postType in *. cbn [gjson.Get] in *.
  destruct (gjson.first_member "post_type" members0) as [v |] eqn:Hfirst;
    [| now elim Hne].
  pose proof (first_member_In _ _ _ Hfirst) as Hin.
  destruct (stored_string _ _ _ _ _ _ Hs Hin (tags_post_type ev0) eq_refl)
    as [-> | [s ->]]; [now elim Hne |].
  cbn [gjson.String] in *.
  destruct (gjson.first_member (s ++ "_type") members0) as [w |] eqn:Hnext;
    [| now elim Hn].
  pose proof (first_member_In _ _ _ Hnext) as Hin'.
  assert (Hsel : selects (s ++ "_type") (s ++ "_type") = true)
    by (unfold selects; apply String.eqb_refl).
  destruct (stored_string _ _ _ _ _ _ Hs Hin' Htag Hsel)
    as [-> | [s' ->]]; [now elim Hn |].
  cbn [gjson.String] in *. rewrite variant_type_enrich. auto.
Qed.

(** X14. A payload decodes only if its first "post_type" member is a JSON
    string, one of message, notice, request and meta_event, and its first
    member keyed by that string followed by "_type" is a JSON string too;
    the two, joined by a dot, name the case of the switch. *)
Theorem discriminators_are_strings (obj : json) (ev : I_Event) :
  convertJsonObjectToEvent obj = Returns ev ->
  exists p n,
    gjson.Get obj "post_type" = Some (JString p)
    /\ gjson.Get obj (p ++ "_type") = Some (JString n)
    /\ In p ["message"; "notice"; "request"; "meta_event"]
    /\ In (p ++ "." ++ n) known_types
    /\ variant_type ev = p ++ "." ++ n.
Proof.
  intros H.
  pose proof (name_of_decoded _ _ H) as [_ Hk].
  destruct (decoded_parts _ _ H) as (_ & _ & _ & Hv & _).
  destruct (discriminators_of_decoded _ _ H) as (p & n & Hp & Hn & Ht & Hfour).
  exists p, n. rewrite <- Ht, Hv. auto.
Qed.

Ltac type_field name n Hone Hin :=
  match goal with
  | H : field dec_string name _ _ = Some _ |- _ =>
      let Hk := fresh "Hk" in
      destruct (keep_members (selects name) _) as [|? [|? ?]] eqn:Hk;
      try discriminate Hone;
      destruct Hin as [Hin | []]; rewrite Hin in Hk;
      rewrite (field_single _ _ _ _ _ _ Hk) in H;
      cbn [dec_string] in H; apply Some_eq in H; now rewrite <- H
  end.

(** X15. When only one member of the payload is stored in the field
    "message_type", GetMessageType of a decoded private message event is
    "private" and that of a decoded group message event is "group". *)
Theorem message_type_of_decoded (obj : json) :
  List.length (selecting "message_type" obj) = 1%nat ->
  (forall e : PrivateMessageEvent.t,
      convertJsonObjectToEvent obj = Returns (PrivateMessage e) ->
      MessageEvent.GetMessageType (PrivateMessageEvent.MessageEvent e)
      = "private")
  /\ (forall e : GroupMessageEvent.t,
      convertJsonObjectToEvent obj = Returns (GroupMessage e) ->
      MessageEvent.GetMessageType (GroupMessageEvent.MessageEvent e)
      = "group").
Proof.
  intros Hone. unfold selecting in Hone. split; intros e H.
  - destruct (discriminators_of_decoded _ _ H) as (p & n & _ & Hn & Ht & Hfour).
    assert (p = "message" /\ n = "private") as [-> ->].
    { cbn [variant_type In] in *.
      repeat (destruct Hfour as [<- | Hfour];
              [try discriminate Ht; injection Ht as <-; auto |]).
      contradiction. }
    apply decoded_PrivateMessage in H as (e1 & f & Hfill & ->).
    cbn [PrivateMessageEvent.mapEvent PrivateMessageEvent.MessageEvent
         MessageEvent.mapEvent].
    unfold MessageEvent.GetMessageType. cbn [MessageEvent.MessageType].
    destruct obj; cbn [gjson.Get] in Hn; try discriminate Hn.
    cbn [dec_struct members_of] in *.
    apply first_member_In in Hn.
    assert (Hin : In ("message_type", JString "private")
                     (keep_members (selects "message_type") members0))
      by (apply filter_In; split; [exact Hn | reflexivity]).
    unfold PrivateMessageEvent.fill, MessageEvent.fill in Hfill. binds.
    cbn [PrivateMessageEvent.MessageEvent MessageEvent.MessageType].
    type_field "message_type" "private" Hone Hin.
  - destruct (discriminators_of_decoded _ _ H) as (p & n & _ & Hn & Ht & Hfour).
    assert (p = "message" /\ n = "group") as [-> ->].
    { cbn [variant_type In] in *.
      repeat (destruct Hfour as [<- | Hfour];
              [try discriminate Ht; injection Ht as <-; auto |]).
      contradiction. }
    apply decoded_GroupMessage in H as (e1 & f & Hfill & ->).
    cbn [GroupMessageEvent.mapEvent GroupMessageEvent.MessageEvent
         MessageEvent.mapEvent].
    unfold MessageEvent.GetMessageType. cbn [MessageEvent.MessageType].
    destruct obj; cbn [gjson.Get] in Hn; try discriminate Hn.
    cbn [dec_struct members_of] in *.
    apply first_member_In in Hn.
    assert (Hin : In ("message_type", JString "group")
                     (keep_members (selects "message_type") members0))
      by (apply filter_In; split; [exact Hn | reflexivity]).
    unfold GroupMessageEvent.fill, MessageEvent.fill in Hfill. binds.
    cbn [GroupMessageEvent.MessageEvent MessageEvent.MessageType].
    type_field "message_type" "group" Hone Hin.
Qed.

End Discriminators.

Lemma switch_outcomes_witness :
  newEvent (adapter := plain_text) "notice.notify" "unknown_sub" = Returns None
  /\ exists ev,
       newEvent (adapter := plain_text) "notice.notify" "honor"
       = Returns (Some ev)
       /\ variant_type ev = "notice.notify".
Proof.
  destruct (switch_outcomes (adapter := plain_text) "notice.notify"
              "unknown_sub") as (_ & Hnil & _).
  destruct (switch_outcomes (adapter := plain_text) "notice.notify" "honor")
    as (Hsome & _ & _).
  split.
  - apply Hnil. split; [reflexivity |]. vm_compute. intuition discriminate.
  - apply Hsome. split; [vm_compute; tauto |]. intros _. vm_compute. tauto.
Defined.

Lemma discriminators_are_strings_witness :
  exists ev p n,
    decode poke_payload = Returns ev
    /\ gjson.Get poke_payload "post_type" = Some (JString p)
    /\ gjson.Get poke_payload (p ++ "_type") = Some (JString n)
    /\ variant_type ev = p ++ "." ++ n.
Proof.
  eexists.
  destruct (discriminators_are_strings (adapter := plain_text)
              (text := sample_text) poke_payload _ eq_refl)
    as (p & n & Hp & Hn & _ & _ & Hv).
  exists p, n. split; [vm_compute; reflexivity |].
  split; [exact Hp |]. split; [exact Hn | exact Hv].
Defined.

Lemma message_type_of_decoded_witness :
  exists e,
    decode group_payload = Returns (GroupMessage e)
    /\ MessageEvent.GetMessageType (GroupMessageEvent.MessageEvent e) = "group".
Proof.
  eexists. split; [vm_compute; reflexivity |].
  destruct (message_type_of_decoded (adapter := plain_text)
              (text := sample_text) group_payload eq_refl) as [_ Hgroup].
  apply Hgroup. reflexivity.
Defined.
